(** * meshtastic-json-bridge: the value normaliser and the packet relay

    A shallow embedding of [apps/pi-forwarder/scripts/meshtastic-json-bridge.py]:
    [to_jsonable], [unwrap_packet] and [on_receive], over a model of the
    Python values these functions inspect.

    Modelling conventions.
    - A Python value is a finite tree ([pyval]); containers that contain
      themselves are outside the model.
    - A computation returns a [result]: a value, an exception of a class
      under [Exception] ([Raise], with an [exn]), or one of a class outside
      it such as [KeyboardInterrupt] ([Interrupt], with a [signal]).  The
      source's [except Exception] handlers catch the first kind and let
      the second through.
    - The interpreter's recursion limit is the [depth] argument of
      [to_jsonable]: the number of nested activations of [to_jsonable] the
      stack still has room for.  Running out raises [RecursionError], which
      the handlers of lines 40, 46 and 58 catch like any other exception.
    - Instances of subclasses of the builtin types behave as the builtin
      (no overridden [hex], [items], [get]).
    - Reading an attribute that an object has gives the attribute; reading
      one it lacks does what the object says ([o_getattr]): it raises
      [AttributeError], which [hasattr] turns into [False], or something
      else, which [hasattr] lets through.
    - A method of an object is given by what calling it does: its result or
      what it raises.  Reading an attribute again within one activation
      gives what the first read gave, and nothing is raised from outside
      the code that runs (no signal arrives between two steps).
    - Writing to the output does not fail.
    - An int key ([KInt]) is one whose [str] the interpreter's limit on
      digits allows; an int beyond that limit is a [KOpaque] key whose
      conversion raises [ValueError]. *)

From Stdlib Require Import ZArith List String Ascii Bool Lia PeanoNat.
From Stdlib.Strings Require Import Byte.
From Stdlib Require Import DecimalString PrimFloat.
Import ListNotations.
Set Warnings "-register-all".
Local Open Scope string_scope.
Local Open Scope list_scope.

(** ** Exceptions and results *)

(** The exceptions whose class is under [Exception]. *)
Inductive exn : Type :=
| RecursionError
| AttributeError
| TypeError
| Error (class_name : string).

(** The exceptions whose class is not under [Exception]. *)
Inductive signal : Type :=
| KeyboardInterrupt
| SystemExit
| GeneratorExit
| Signal (class_name : string).

Inductive result (A : Type) : Type :=
| Ok (a : A)
| Raise (e : exn)
| Interrupt (s : signal).

Arguments Ok {A} a.
Arguments Raise {A} e.
Arguments Interrupt {A} s.

Definition bind {A B : Type} (m : result A) (f : A -> result B) : result B :=
  match m with
  | Ok a => f a
  | Raise e => Raise e
  | Interrupt s => Interrupt s
  end.

Notation "x <- m ;; k" := (bind m (fun x => k))
  (at level 61, m at next level, right associativity).

(** [try: return body / except Exception: pass], followed by [rest]: the
    handler takes what is under [Exception] and nothing else. *)
Definition try_return {A : Type} (body : result A) (rest : result A) : result A :=
  match body with
  | Ok a => Ok a
  | Raise _ => rest
  | Interrupt s => Interrupt s
  end.

(** What reading a missing attribute ends in. *)
Inductive failure : Type :=
| Raised (e : exn)
| Interrupted (s : signal).

(** ** Builtin text conversions used by the source *)

Definition hexdigits : string := "0123456789abcdef".

Definition hex_digit (n : N) : ascii :=
  match String.get (N.to_nat n) hexdigits with
  | Some c => c
  | None => "0"%char
  end.

Definition byte_hex (b : byte) : string :=
  let n := Byte.to_N b in
  String (hex_digit (n / 16)) (String (hex_digit (n mod 16)) EmptyString).

(** [bytes.hex()] *)
Fixpoint bytes_hex (bs : list byte) : string :=
  match bs with
  | [] => ""
  | b :: rest => byte_hex b ++ bytes_hex rest
  end.

(** [repr] of a bytes object: the quote is the single quote, unless the
    bytes hold a single quote and no double quote; the quote and the
    backslash are escaped, tab, newline and carriage return have their
    letter escapes, other bytes outside the printable ASCII range are
    written as a backslash, an x and two hex digits. *)
Definition squote : ascii := "'"%char.
Definition dquote : ascii := ascii_of_nat 34.
Definition backslash : ascii := "\"%char.

Definition repr_quote (bs : list byte) : ascii :=
  let cs := map ascii_of_byte bs in
  if existsb (Ascii.eqb squote) cs && negb (existsb (Ascii.eqb dquote) cs)
  then dquote else squote.

Definition byte_repr (quote : ascii) (b : byte) : string :=
  let c := ascii_of_byte b in
  let n := Byte.to_N b in
  if Ascii.eqb c quote || Ascii.eqb c backslash then String backslash (String c "")
  else if (n =? 9)%N then "\t"
  else if (n =? 10)%N then "\n"
  else if (n =? 13)%N then "\r"
  else if (n <? 32)%N || (127 <=? n)%N then String backslash (String "x" (byte_hex b))
  else String c "".

Definition bytes_repr (bs : list byte) : string :=
  let q := repr_quote bs in
  String "b" (String q (concat "" (map (byte_repr q) bs) ++ String q "")).

(** [str] of a bytearray *)
Definition bytearray_str (bs : list byte) : string :=
  "bytearray(" ++ bytes_repr bs ++ ")".

(** [str] of an int *)
Definition int_str (z : Z) : string := NilZero.string_of_int (Z.to_int z).

(** ** Values *)

(** A dictionary key.  Keys of the types whose [str] is spelled out here
    have a constructor each; any other hashable key (a float, a tuple, a
    frozenset, an instance of a user class, an int with more digits than
    [str] accepts) is [KOpaque] and carries what [str(k)] does for it. *)
Inductive pykey : Type :=
| KStr (s : string)
| KInt (z : Z)
| KBool (b : bool)
| KNone
| KBytes (bs : list byte)
| KOpaque (text : result string).

(** [str(k)] of line 24 *)
Definition py_str_key (k : pykey) : result string :=
  match k with
  | KStr s => Ok s
  | KInt z => Ok (int_str z)
  | KBool true => Ok "True"
  | KBool false => Ok "False"
  | KNone => Ok "None"
  | KBytes bs => Ok (bytes_repr bs)
  | KOpaque text => text
  end.

(** An attribute that the source probes and then calls. *)
Inductive method (V : Type) : Type :=
| Absent
| NotCallable
| Callable (outcome : result V).

Arguments Absent {V}.
Arguments NotCallable {V}.
Arguments Callable {V} outcome.

(** Modelled from the spec: the descriptor of a field of a
    protocol-buffer message, as far as
    [google.protobuf.json_format.MessageToDict] (not part of this
    repository) reads it: the tag number, the declared name and the
    lowerCamelCase JSON name. *)
Record FieldDescriptor : Type := {
  fd_number : Z;
  fd_name : string;
  fd_json_name : string
}.

(** Modelled from the spec: the value of a populated field.  An
    enumerated field holds its integer code and has a symbolic name. *)
Inductive pb_value : Type :=
| PbBool (b : bool)
| PbInt (z : Z)
| PbFloat (f : float)
| PbString (s : string)
| PbEnum (code : Z) (symbol : string)
| PbMessage (fields : list (FieldDescriptor * pb_value))
| PbRepeated (elems : list pb_value).

(** Modelled from the spec: what [ListFields] enumerates, the populated
    fields of a message with their values. *)
Definition message : Type := list (FieldDescriptor * pb_value).

(** What lines 29-61 observe of a value that is none of the builtin types
    of lines 19-25. *)
Record object (V : Type) : Type := {
  o_ListFields : bool;                      (* the value has ListFields     *)
  o_DESCRIPTOR : bool;                      (* the value has DESCRIPTOR     *)
  o_message : option message;               (* None: MessageToDict raises   *)
  o_to_dict : method V;                     (* value.to_dict                *)
  o_vars : option (list (pykey * V));       (* vars(value).items(), if any  *)
  o_str : result string;                    (* str(value)                   *)
  o_getattr : string -> failure             (* reading a missing attribute  *)
}.

Arguments o_ListFields {V} _.
Arguments o_DESCRIPTOR {V} _.
Arguments o_message {V} _.
Arguments o_to_dict {V} _.
Arguments o_vars {V} _.
Arguments o_str {V} _.
Arguments o_getattr {V} _ _.

Inductive pyval : Type :=
| PNone
| PBool (b : bool)
| PInt (z : Z)
| PFloat (f : float)
| PStr (s : string)
| PBytes (bs : list byte)
| PByteArray (bs : list byte)
| PDict (items : list (pykey * pyval))     (* in insertion order *)
| PList (elems : list pyval)
| PTuple (elems : list pyval)
| PSet (elems : list pyval)                (* in iteration order *)
| PObj (o : object pyval).

(** Reading a missing attribute of an object that has no [__getattr__]
    of its own. *)
Definition lookup_fails : string -> failure := fun _ => Raised AttributeError.

(** A bytearray has none of the probed attributes; its [str] is its repr. *)
Definition bytearray_object (bs : list byte) : object pyval :=
  {| o_ListFields := false; o_DESCRIPTOR := false; o_message := None;
     o_to_dict := Absent; o_vars := None; o_str := Ok (bytearray_str bs);
     o_getattr := lookup_fails |}.

(** [hasattr(value, name)], for an attribute that is [present] or not:
    [AttributeError] from the read means [False], anything else goes
    through. *)
Definition hasattr (value : object pyval) (name : string) (present : bool)
  : result bool :=
  if present then Ok true
  else
    match o_getattr value name with
    | Raised AttributeError => Ok false
    | Raised e => Raise e
    | Interrupted s => Interrupt s
    end.

(** ** Dictionaries *)

Definition key_is (k : pykey) (s : string) : bool :=
  match k with
  | KStr s' => String.eqb s' s
  | _ => false
  end.

(** [d.get(k)] for a text [k] *)
Fixpoint dict_get {V : Type} (d : list (pykey * V)) (k : string) : option V :=
  match d with
  | [] => None
  | (k', v) :: rest => if key_is k' k then Some v else dict_get rest k
  end.

(** A dictionary under construction whose keys are all text. *)
Definition text_dict (V : Type) : Type := list (string * V).

(** [d[k] = v]: an existing key keeps its place and takes the new value, a
    new key goes last. *)
Fixpoint dict_setitem {V : Type} (d : text_dict V) (k : string) (v : V)
  : text_dict V :=
  match d with
  | [] => [(k, v)]
  | (k', v') :: rest =>
      if String.eqb k' k then (k', v) :: rest
      else (k', v') :: dict_setitem rest k v
  end.

Definition text_items {V : Type} (d : text_dict V) : list (pykey * V) :=
  map (fun kv => (KStr (fst kv), snd kv)) d.

(** ** The normaliser, lines 18-61 *)

(** Modelled from the spec: the key [MessageToDict] gives a field, its
    declared name when [preserving_proto_field_name] is set, its JSON name
    otherwise. *)
Definition field_key (preserving_proto_field_name : bool) (fd : FieldDescriptor)
  : string :=
  if preserving_proto_field_name then fd_name fd else fd_json_name fd.

(** Modelled from the spec: what [MessageToDict] makes of a field value.
    An enumerated field is its integer code when [use_integers_for_enums]
    is set, its symbolic name otherwise; a nested message becomes a
    mapping keyed by [field_key], built field by field; a repeated field
    becomes a list. *)
Fixpoint field_to_json (preserving_proto_field_name use_integers_for_enums : bool)
  (v : pb_value) : pyval :=
  match v with
  | PbBool b => PBool b
  | PbInt z => PInt z
  | PbFloat f => PFloat f
  | PbString s => PStr s
  | PbEnum code symbol => if use_integers_for_enums then PInt code else PStr symbol
  | PbMessage fields =>
      PDict
        (text_items
           (fold_left
              (fun js (field : FieldDescriptor * pb_value) =>
                 dict_setitem js
                   (field_key preserving_proto_field_name (fst field))
                   (field_to_json preserving_proto_field_name
                      use_integers_for_enums (snd field)))
              fields []))
  | PbRepeated elems =>
      PList (map (field_to_json preserving_proto_field_name use_integers_for_enums) elems)
  end.

(** Modelled from the spec: [MessageToDict(value, ...)] of line 34.  It
    raises on an object that has the two attributes without being a
    message. *)
Definition MessageToDict (value : object pyval)
  (preserving_proto_field_name use_integers_for_enums : bool) : result pyval :=
  match o_message value with
  | Some fields =>
      Ok (field_to_json preserving_proto_field_name use_integers_for_enums
            (PbMessage fields))
  | None => Raise AttributeError
  end.

(** [{str(k): f(v) for k, v in items}], with the dictionary built so far. *)
Fixpoint dict_comprehension (f : pyval -> result pyval)
  (items : list (pykey * pyval)) (built : text_dict pyval)
  : result (text_dict pyval) :=
  match items with
  | [] => Ok built
  | (k, v) :: rest =>
      key <- py_str_key k ;;
      item <- f v ;;
      dict_comprehension f rest (dict_setitem built key item)
  end.

(** [[f(v) for v in elems]] *)
Fixpoint list_comprehension (f : pyval -> result pyval) (elems : list pyval)
  : result (list pyval) :=
  match elems with
  | [] => Ok []
  | v :: rest =>
      item <- f v ;;
      items <- list_comprehension f rest ;;
      Ok (item :: items)
  end.

(** The loop of lines 52-55 over [vars(value).items()].  Only a text key
    has [startswith] with a text prefix: bytes refuse the prefix, the other
    keys lack the method. *)
Fixpoint vars_loop (f : pyval -> result pyval)
  (items : list (pykey * pyval)) (converted : text_dict pyval)
  : result (text_dict pyval) :=
  match items with
  | [] => Ok converted
  | (key, item) :: rest =>
      match key with
      | KStr name =>
          if String.prefix "_" name then vars_loop f rest converted
          else
            jsonable <- f item ;;
            vars_loop f rest (dict_setitem converted name jsonable)
      | KBytes _ => Raise TypeError
      | _ => Raise AttributeError
      end
  end.

(** Line 61: [return str(value)] *)
Definition str_fallback (value : object pyval) : result pyval :=
  text <- o_str value ;; Ok (PStr text).

(** Lines 49-61: the exported attributes, when there are any. *)
Definition from_vars (f : pyval -> result pyval) (value : object pyval)
  : result pyval :=
  match o_vars value with
  | Some items =>
      match vars_loop f items [] with
      | Ok ((_ :: _) as converted) => Ok (PDict (text_items converted))
      | Ok [] => str_fallback value            (* [if converted:] fails *)
      | Raise _ => str_fallback value          (* [except Exception: pass] *)
      | Interrupt s => Interrupt s
      end
  | None =>
      _ <- hasattr value "__dict__" false ;; str_fallback value
  end.

(** Lines 43-61: [to_dict], when it is there and callable. *)
Definition from_to_dict (f : pyval -> result pyval) (value : object pyval)
  : result pyval :=
  match o_to_dict value with
  | Callable outcome => try_return (d <- outcome ;; f d) (from_vars f value)
  | NotCallable => from_vars f value
  | Absent => _ <- hasattr value "to_dict" false ;; from_vars f value
  end.

(** Lines 29-61: a protocol-buffer message, when the value looks like one.
    [DESCRIPTOR] is probed only when [ListFields] is there. *)
Definition from_protobuf (f : pyval -> result pyval) (value : object pyval)
  : result pyval :=
  has_ListFields <- hasattr value "ListFields" (o_ListFields value) ;;
  has_DESCRIPTOR <-
    (if has_ListFields then hasattr value "DESCRIPTOR" (o_DESCRIPTOR value)
     else Ok false) ;;
  if has_ListFields && has_DESCRIPTOR then
    try_return (d <- MessageToDict value true true ;; f d) (from_to_dict f value)
  else from_to_dict f value.

(** The body of [to_jsonable], with [f] for its recursive calls. *)
Definition to_jsonable_body (f : pyval -> result pyval) (value : pyval)
  : result pyval :=
  match value with
  | PNone | PStr _ | PInt _ | PFloat _ | PBool _ => Ok value
  | PBytes bs => Ok (PStr (bytes_hex bs))
  | PDict items =>
      built <- dict_comprehension f items [] ;; Ok (PDict (text_items built))
  | PList elems | PTuple elems | PSet elems =>
      items <- list_comprehension f elems ;; Ok (PList items)
  | PByteArray bs => from_protobuf f (bytearray_object bs)
  | PObj o => from_protobuf f o
  end.

Fixpoint to_jsonable (depth : nat) (value : pyval) : result pyval :=
  match depth with
  | O => Raise RecursionError
  | S depth' => to_jsonable_body (to_jsonable depth') value
  end.

(** ** The relay, lines 64-75 *)

(** [unwrap_packet(packet=None, **kwargs)] *)
Definition unwrap_packet (packet : pyval) (kwargs : list (pykey * pyval)) : pyval :=
  let resolved :=
    match packet with
    | PNone => match dict_get kwargs "packet" with Some v => v | None => PNone end
    | _ => packet
    end in
  match resolved with
  | PDict items =>
      match dict_get items "packet" with
      | Some (PDict inner) => PDict inner
      | _ => resolved
      end
  | _ => resolved
  end.

Section Relay.

(** [json.dumps(obj, ensure_ascii=...)], from the standard library. *)
Variable json_dumps : pyval -> bool -> result string.

Definition newline : string := String (ascii_of_nat 10) "".

(** [on_receive(packet=None, interface=None, **kwargs)]; [stdout] is the
    list of lines written so far, and the result is that list afterwards. *)
Definition on_receive (depth : nat) (packet interface : pyval)
  (kwargs : list (pykey * pyval)) (stdout : list string) : result (list string) :=
  let resolved := unwrap_packet packet kwargs in
  match resolved with
  | PNone => Ok stdout
  | _ =>
      jsonable <- to_jsonable depth resolved ;;
      text <- json_dumps jsonable false ;;
      Ok (stdout ++ [(text ++ newline)%string])
  end.

End Relay.

(** ** Measures and predicates for the statements *)

(** The nesting of a field value, which is the number of nested
    activations the result of [MessageToDict] asks for. *)
Fixpoint pb_height (v : pb_value) : nat :=
  match v with
  | PbMessage fields => S (list_max (map (fun field => pb_height (snd field)) fields))
  | PbRepeated elems => S (list_max (map pb_height elems))
  | _ => 1
  end.

(** The number of nested activations of [to_jsonable] a value can ask
    for, through its elements and through what its attributes give. *)
Fixpoint height (v : pyval) : nat :=
  match v with
  | PDict items => S (list_max (map (fun kv => height (snd kv)) items))
  | PList elems | PTuple elems | PSet elems => S (list_max (map height elems))
  | PObj o =>
      S (Nat.max
           (match o_message o with
            | Some fields => pb_height (PbMessage fields)
            | None => 0
            end)
           (Nat.max
              (match o_to_dict o with
               | Callable (Ok d) => height d
               | _ => 0
               end)
              (match o_vars o with
               | Some items => list_max (map (fun kv => height (snd kv)) items)
               | None => 0
               end)))
  | _ => 1
  end.

(** The values line 19 returns as they are. *)
Definition is_scalar (v : pyval) : bool :=
  match v with
  | PNone | PBool _ | PInt _ | PFloat _ | PStr _ => true
  | _ => false
  end.

Fixpoint distinct (ss : list string) : bool :=
  match ss with
  | [] => true
  | s :: rest => negb (existsb (String.eqb s) rest) && distinct rest
  end.

Definition key_text (k : pykey) : option string :=
  match k with
  | KStr s => Some s
  | _ => None
  end.

Fixpoint keys_text (keys : list pykey) : option (list string) :=
  match keys with
  | [] => Some []
  | k :: rest =>
      match key_text k, keys_text rest with
      | Some s, Some ss => Some (s :: ss)
      | _, _ => None
      end
  end.

(** A JSON-safe value: null, a boolean, a number, a string, an array of
    JSON-safe values, or an object with distinct text keys and JSON-safe
    values. *)
Fixpoint json_safe (v : pyval) : bool :=
  match v with
  | PNone | PBool _ | PInt _ | PFloat _ | PStr _ => true
  | PList elems => forallb json_safe elems
  | PDict items =>
      match keys_text (map fst items) with
      | Some ss => distinct ss
      | None => false
      end
      && forallb (fun kv => json_safe (snd kv)) items
  | _ => false
  end.

(** Every text conversion that no handler guards succeeds: [str(k)] of the
    keys of each mapping reached through containers, and [str(value)] of
    each object reached through containers. *)
Fixpoint str_succeeds (v : pyval) : bool :=
  match v with
  | PDict items =>
      forallb (fun kv =>
                 match py_str_key (fst kv) with Ok _ => true | _ => false end
                 && str_succeeds (snd kv)) items
  | PList elems | PTuple elems | PSet elems => forallb str_succeeds elems
  | PObj o => match o_str o with Ok _ => true | _ => false end
  | _ => true
  end.

(** [hasattr] answers [False] for a missing attribute of that name. *)
Definition lacks (value : object pyval) (name : string) : bool :=
  match o_getattr value name with
  | Raised AttributeError => true
  | _ => false
  end.

(** None of the probes of lines 29, 43 and 49 raises on the object. *)
Definition probes_answer (value : object pyval) : bool :=
  (o_ListFields value || lacks value "ListFields")
  && (o_DESCRIPTOR value || lacks value "DESCRIPTOR")
  && match o_to_dict value with Absent => lacks value "to_dict" | _ => true end
  && match o_vars value with None => lacks value "__dict__" | Some _ => true end.

(** The attribute probes that no handler guards answer: those of each
    object reached through containers. *)
Fixpoint probes_succeed (v : pyval) : bool :=
  match v with
  | PDict items => forallb (fun kv => probes_succeed (snd kv)) items
  | PList elems | PTuple elems | PSet elems => forallb probes_succeed elems
  | PObj o => probes_answer o
  | _ => true
  end.

Definition interrupts {A : Type} (m : result A) : bool :=
  match m with
  | Interrupt _ => true
  | _ => false
  end.

Definition key_interrupts (k : pykey) : bool :=
  match k with
  | KOpaque text => interrupts text
  | _ => false
  end.

Definition lookup_interrupts (value : object pyval) (name : string) : bool :=
  match o_getattr value name with
  | Interrupted _ => true
  | Raised _ => false
  end.

(** Nothing in the value raises outside [Exception]: no key conversion,
    attribute read, [to_dict] or [str] of it or of what it holds or
    gives. *)
Fixpoint no_signal (v : pyval) : bool :=
  match v with
  | PDict items =>
      forallb (fun kv => negb (key_interrupts (fst kv)) && no_signal (snd kv)) items
  | PList elems | PTuple elems | PSet elems => forallb no_signal elems
  | PObj o =>
      negb (lookup_interrupts o "ListFields")
      && negb (lookup_interrupts o "DESCRIPTOR")
      && negb (lookup_interrupts o "to_dict")
      && negb (lookup_interrupts o "__dict__")
      && negb (interrupts (o_str o))
      && match o_to_dict o with
         | Callable (Ok d) => no_signal d
         | Callable (Interrupt _) => false
         | _ => true
         end
      && match o_vars o with
         | Some items => forallb (fun kv => no_signal (snd kv)) items
         | None => true
         end
  | _ => true
  end.

(** The dictionary that assigning the pairs one after the other builds. *)
Definition dict_of {V : Type} (pairs : list (string * V)) (built : text_dict V)
  : text_dict V :=
  fold_left (fun d kv => dict_setitem d (fst kv) (snd kv)) pairs built.

(** The order in which the keys of such a dictionary come: each key where
    it was first assigned. *)
Definition insertion_order (keys seen : list string) : list string :=
  fold_left
    (fun seen k =>
       if existsb (fun k' => String.eqb k' k) seen then seen else seen ++ [k])
    keys seen.

(** The attributes line 53 lets through, with the text of their names. *)
Definition exported (names : list string) (items : list (pykey * pyval))
  : list (string * pyval) :=
  filter (fun kv => negb (String.prefix "_" (fst kv)))
    (combine names (map snd items)).

(** The computation raises what a handler takes. *)
Definition raises {A : Type} (m : result A) : bool :=
  match m with
  | Raise _ => true
  | _ => false
  end.

(** Lines 29-41 return nothing for the value: a probe answers [False], or
    the rule is entered and left through its handler. *)
Definition skips_protobuf (f : pyval -> result pyval) (value : object pyval) : bool :=
  if o_ListFields value then
    if o_DESCRIPTOR value then raises (d <- MessageToDict value true true ;; f d)
    else lacks value "DESCRIPTOR"
  else lacks value "ListFields".

(** Lines 29-47 return nothing for the value: each of the two rules is
    either not entered, its probe answering [False], or left through its
    handler. *)
Definition reaches_vars (f : pyval -> result pyval) (value : object pyval) : bool :=
  skips_protobuf f value
  && match o_to_dict value with
     | Callable outcome => raises (d <- outcome ;; f d)
     | NotCallable => true
     | Absent => lacks value "to_dict"
     end.

(** No rule of lines 29-59 is entered, each probe answering [False]. *)
Definition opaque (value : object pyval) : bool :=
  negb (o_ListFields value && o_DESCRIPTOR value)
  && match o_to_dict value with Callable _ => false | _ => true end
  && match o_vars value with Some _ => false | None => true end
  && probes_answer value.

(** Modelled from the spec: the entries [MessageToDict] assigns, in the
    order of the fields. *)
Definition message_entries (preserving_proto_field_name use_integers_for_enums : bool)
  (fields : message) : list (string * pyval) :=
  map (fun fld : FieldDescriptor * pb_value =>
         (field_key preserving_proto_field_name (fst fld),
          field_to_json preserving_proto_field_name use_integers_for_enums (snd fld)))
    fields.

(** The value of a lowercase hexadecimal digit. *)
Definition hex_value (c : ascii) : option N :=
  let n := N_of_ascii c in
  if (48 <=? n)%N && (n <=? 57)%N then Some (n - 48)%N
  else if (97 <=? n)%N && (n <=? 102)%N then Some (n - 87)%N
  else None.

(** Reading a text as pairs of lowercase hexadecimal digits, one byte
    value per pair, with nothing before, between or after the pairs. *)
Fixpoint hex_decode (s : string) : option (list N) :=
  match s with
  | EmptyString => Some []
  | String hi (String lo rest) =>
      match hex_value hi, hex_value lo, hex_decode rest with
      | Some h, Some l, Some values => Some ((16 * h + l)%N :: values)
      | _, _, _ => None
      end
  | String _ EmptyString => None
  end.

(** ** Sample values *)

(** An instance of a class whose [__str__] raises [ValueError] and that
    has no attribute of its own. *)
Definition unprintable : pyval :=
  PObj {| o_ListFields := false; o_DESCRIPTOR := false; o_message := None;
          o_to_dict := Absent; o_vars := Some []; o_str := Raise (Error "ValueError");
          o_getattr := lookup_fails |}.

Definition field (number : Z) (name json_name : string) : FieldDescriptor :=
  {| fd_number := number; fd_name := name; fd_json_name := json_name |}.

(** The payload of the end-to-end scenario of the specification. *)
Definition scenario_payload : pyval :=
  PDict [(KStr "from", PInt 123456);
         (KStr "decoded",
          PDict [(KStr "position", PDict [(KStr "latitude_i", PInt 377749)])])].

(** An object whose [to_dict] gives a list holding bytes. *)
Definition with_to_dict : pyval :=
  PObj {| o_ListFields := false; o_DESCRIPTOR := false; o_message := None;
          o_to_dict := Callable (Ok (PList [PInt 1; PBytes [xab; x01]]));
          o_vars := None; o_str := Ok "telemetry";
          o_getattr := lookup_fails |}.

(** A position message with [latitude_i] and [longitude_i] populated. *)
Definition position : pyval :=
  PObj {| o_ListFields := true; o_DESCRIPTOR := true;
          o_message :=
            Some [(field 1 "latitude_i" "latitudeI", PbInt 377749);
                  (field 2 "longitude_i" "longitudeI", PbInt (-1224194))];
          o_to_dict := Absent; o_vars := None; o_str := Ok "";
          o_getattr := lookup_fails |}.

(** ** Further predicates *)

(** The attributes [to_jsonable] probes outside its handlers, at lines 29,
    43 and 49. *)
Definition probed_names : list string :=
  ["ListFields"; "DESCRIPTOR"; "to_dict"; "__dict__"].

(** An instance of a class whose [__getattr__] raises [ValueError] for
    every missing name and that has no attribute of its own. *)
Definition fragile : pyval :=
  PObj {| o_ListFields := false; o_DESCRIPTOR := false; o_message := None;
          o_to_dict := Absent; o_vars := Some []; o_str := Ok "fragile";
          o_getattr := fun _ => Raised (Error "ValueError") |}.

(** An object whose [to_dict] is interrupted from the keyboard. *)
Definition interrupted : pyval :=
  PObj {| o_ListFields := false; o_DESCRIPTOR := false; o_message := None;
          o_to_dict := Callable (Interrupt KeyboardInterrupt);
          o_vars := None; o_str := Ok "busy";
          o_getattr := lookup_fails |}.

(** Plain data: builtin values only, through all containers, with mapping
    keys whose [str] succeeds. *)
Fixpoint plain (v : pyval) : bool :=
  match v with
  | PDict items =>
      forallb (fun kv =>
                 match py_str_key (fst kv) with Ok _ => true | _ => false end
                 && plain (snd kv)) items
  | PList elems | PTuple elems | PSet elems => forallb plain elems
  | PObj _ => false
  | _ => true
  end.

(** The value last assigned to a key in a run of assignments. *)
Fixpoint last_assigned {V : Type} (pairs : list (string * V)) (k : string)
  : option V :=
  match pairs with
  | [] => None
  | (k', v) :: rest =>
      match last_assigned rest k with
      | Some w => Some w
      | None => if String.eqb k' k then Some v else None
      end
  end.

(** ** Lemmas on results and dictionaries *)

Lemma bind_Ok {A B : Type} (m : result A) (k : A -> result B) (b : B) :
  bind m k = Ok b -> exists a, m = Ok a /\ k a = Ok b.
Proof.
  destruct m as [a|e|s]; simpl; intros H; [exists a; auto | discriminate..].
Qed.

Ltac bind_inv H :=
  let a := fresh "a" in
  let Ha := fresh "Ha" in
  apply bind_Ok in H; destruct H as (a & Ha & H).

Lemma distinct_NoDup (ss : list string) : distinct ss = true <-> NoDup ss.
Proof.
  induction ss as [|s ss IH]; simpl.
  - split; [constructor | reflexivity].
  - rewrite andb_true_iff, negb_true_iff, IH. split.
    + intros [Hs Hd]. constructor; [|assumption].
      intros Hin. assert (existsb (String.eqb s) ss = true) as E.
      { apply existsb_exists. exists s. split; [assumption | apply String.eqb_refl]. }
      congruence.
    + intros Hnd. inversion Hnd as [|? ? Hs Hd]; subst. split; [|assumption].
      destruct (existsb (String.eqb s) ss) eqn:E; [|reflexivity].
      apply existsb_exists in E. destruct E as (x & Hx & Hsx).
      apply String.eqb_eq in Hsx. subst x. contradiction.
Qed.

Lemma keys_text_items {V : Type} (d : text_dict V) :
  keys_text (map fst (text_items d)) = Some (map fst d).
Proof.
  unfold text_items.
  induction d as [|[k v] d IH]; simpl; [|rewrite IH]; reflexivity.
Qed.

Lemma forallb_text_items {V : Type} (p : V -> bool) (d : text_dict V) :
  forallb (fun kv => p (snd kv)) (text_items d) = forallb (fun kv => p (snd kv)) d.
Proof.
  unfold text_items.
  induction d as [|[k v] d IH]; simpl; [|rewrite IH]; reflexivity.
Qed.

Lemma dict_setitem_keys {V : Type} (d : text_dict V) (k : string) (v : V) :
  map fst (dict_setitem d k v) =
  if existsb (fun k' => String.eqb k' k) (map fst d) then map fst d
  else map fst d ++ [k].
Proof.
  induction d as [|[k' v'] d IH]; simpl; [reflexivity|].
  destruct (String.eqb k' k); simpl; [reflexivity|].
  rewrite IH. destruct (existsb _ (map fst d)); reflexivity.
Qed.

Lemma existsb_eqb_In (k : string) (ks : list string) :
  existsb (fun k' => String.eqb k' k) ks = true <-> In k ks.
Proof.
  rewrite existsb_exists. split.
  - intros (x & Hx & E). apply String.eqb_eq in E. subst. assumption.
  - intros H. exists k. split; [assumption | apply String.eqb_refl].
Qed.

Lemma dict_setitem_NoDup {V : Type} (d : text_dict V) (k : string) (v : V) :
  NoDup (map fst d) -> NoDup (map fst (dict_setitem d k v)).
Proof.
  intros H. rewrite dict_setitem_keys.
  destruct (existsb _ (map fst d)) eqn:E; [assumption|].
  apply NoDup_app; [assumption | repeat constructor; simpl; tauto |].
  intros x Hx [Hk|[]]. subst x.
  apply existsb_eqb_In in Hx. congruence.
Qed.

Lemma dict_setitem_values {V : Type} (P : V -> Prop) (d : text_dict V)
  (k : string) (v : V) :
  Forall (fun kv => P (snd kv)) d -> P v ->
  Forall (fun kv => P (snd kv)) (dict_setitem d k v).
Proof.
  intros Hd Hv. induction d as [|[k' v'] d IH]; simpl.
  - repeat constructor. assumption.
  - inversion Hd; subst. destruct (String.eqb k' k); constructor; auto.
Qed.

Lemma dict_setitem_new {V : Type} (d : text_dict V) (k : string) (v : V) :
  ~ In k (map fst d) -> dict_setitem d k v = d ++ [(k, v)].
Proof.
  induction d as [|[k' v'] d IH]; simpl; intros H; [reflexivity|].
  destruct (String.eqb k' k) eqn:E.
  - apply String.eqb_eq in E. tauto.
  - rewrite IH; tauto.
Qed.

Lemma dict_setitem_nonempty {V : Type} (d : text_dict V) (k : string) (v : V) :
  dict_setitem d k v <> [].
Proof.
  destruct d as [|[k' v'] d]; simpl; [discriminate|].
  destruct (String.eqb k' k); discriminate.
Qed.

Lemma json_safe_text_dict (d : text_dict pyval) :
  NoDup (map fst d) -> Forall (fun kv => json_safe (snd kv) = true) d ->
  json_safe (PDict (text_items d)) = true.
Proof.
  intros Hk Hv. simpl. rewrite keys_text_items.
  apply andb_true_iff. split; [apply distinct_NoDup; assumption|].
  rewrite forallb_text_items. apply forallb_forall.
  rewrite Forall_forall in Hv. assumption.
Qed.

Lemma list_max_map_le {A : Type} (h : A -> nat) (xs : list A) (n : nat) :
  list_max (map h xs) <= n <-> Forall (fun x => h x <= n) xs.
Proof.
  rewrite list_max_le, Forall_map. reflexivity.
Qed.

Lemma list_max_map_In {A : Type} (h : A -> nat) (xs : list A) (x : A) :
  In x xs -> h x <= list_max (map h xs).
Proof.
  intros Hx.
  pose proof (proj1 (list_max_map_le h xs _) (Nat.le_refl _)) as H.
  rewrite Forall_forall in H. auto.
Qed.

Lemma height_text_dict (d : text_dict pyval) (n : nat) :
  Forall (fun kv => height (snd kv) <= n) d -> height (PDict (text_items d)) <= S n.
Proof.
  intros H. simpl. apply le_n_S. apply list_max_map_le.
  unfold text_items. rewrite Forall_map. simpl. assumption.
Qed.

(** ** What one activation returns, from what its recursive calls return *)

Section Postcondition.

Variable f : pyval -> result pyval.
Variables Pin Pout : pyval -> Prop.
Hypothesis f_post : forall v r, f v = Ok r -> Pin r.
Hypothesis Pout_scalar : forall v, is_scalar v = true -> Pout v.
Hypothesis Pout_list : forall l, Forall Pin l -> Pout (PList l).
Hypothesis Pout_dict :
  forall d, NoDup (map fst d) -> Forall (fun kv => Pin (snd kv)) d ->
            Pout (PDict (text_items d)).
Hypothesis Pin_Pout : forall r, Pin r -> Pout r.

Lemma list_comprehension_post (elems out : list pyval) :
  list_comprehension f elems = Ok out -> Forall Pin out.
Proof.
  revert out. induction elems as [|v elems IH]; simpl; intros out H.
  - injection H as <-. constructor.
  - bind_inv H. bind_inv H. injection H as <-.
    constructor; [eapply f_post; eassumption | apply IH; assumption].
Qed.

Lemma dict_comprehension_post (items : list (pykey * pyval))
  (built out : text_dict pyval) :
  NoDup (map fst built) -> Forall (fun kv => Pin (snd kv)) built ->
  dict_comprehension f items built = Ok out ->
  NoDup (map fst out) /\ Forall (fun kv => Pin (snd kv)) out.
Proof.
  revert built. induction items as [|[k v] items IH]; simpl; intros built Hk Hv H.
  - injection H as <-. auto.
  - bind_inv H. bind_inv H. apply IH in H; [assumption | |].
    + apply dict_setitem_NoDup; assumption.
    + apply dict_setitem_values; [assumption | eapply f_post; eassumption].
Qed.

Lemma vars_loop_post (items : list (pykey * pyval))
  (converted out : text_dict pyval) :
  NoDup (map fst converted) -> Forall (fun kv => Pin (snd kv)) converted ->
  vars_loop f items converted = Ok out ->
  NoDup (map fst out) /\ Forall (fun kv => Pin (snd kv)) out.
Proof.
  revert converted.
  induction items as [|[key item] items IH]; simpl; intros converted Hk Hv H.
  - injection H as <-. auto.
  - destruct key as [name| | | | |]; try discriminate.
    destruct (String.prefix "_" name); [eauto|].
    bind_inv H. apply IH in H; [assumption | |].
    + apply dict_setitem_NoDup; assumption.
    + apply dict_setitem_values; [assumption | eapply f_post; eassumption].
Qed.

Lemma str_fallback_post (o : object pyval) (r : pyval) :
  str_fallback o = Ok r -> Pout r.
Proof.
  unfold str_fallback. intros H. bind_inv H. injection H as <-.
  apply Pout_scalar. reflexivity.
Qed.

Lemma from_vars_post (o : object pyval) (r : pyval) :
  from_vars f o = Ok r -> Pout r.
Proof.
  unfold from_vars. destruct (o_vars o) as [items|].
  - destruct (vars_loop f items []) as [[|kv converted]|e|s] eqn:E;
      try apply str_fallback_post; [|discriminate].
    intros H. injection H as <-.
    destruct (vars_loop_post items [] _ (NoDup_nil _) (Forall_nil _) E).
    apply (Pout_dict (kv :: converted)); assumption.
  - intros H. bind_inv H. revert H. apply str_fallback_post.
Qed.

Lemma from_to_dict_post (o : object pyval) (r : pyval) :
  from_to_dict f o = Ok r -> Pout r.
Proof.
  unfold from_to_dict. destruct (o_to_dict o) as [| |outcome].
  - intros H. bind_inv H. revert H. apply from_vars_post.
  - apply from_vars_post.
  - unfold try_return. destruct (bind outcome _) as [a|e|s] eqn:E.
    + intros H. injection H as <-. bind_inv E. eauto.
    + apply from_vars_post.
    + discriminate.
Qed.

Lemma from_protobuf_post (o : object pyval) (r : pyval) :
  from_protobuf f o = Ok r -> Pout r.
Proof.
  unfold from_protobuf. intros H. bind_inv H. bind_inv H. revert H.
  destruct (a && a0); [|apply from_to_dict_post].
  unfold try_return. destruct (bind (MessageToDict o true true) _) as [d|e|s] eqn:E.
  - intros H. injection H as <-. bind_inv E. eauto.
  - apply from_to_dict_post.
  - discriminate.
Qed.

Lemma to_jsonable_body_post (v r : pyval) :
  to_jsonable_body f v = Ok r -> Pout r.
Proof.
  destruct v; simpl; intros H;
    try (injection H as <-; apply Pout_scalar; reflexivity);
    try (apply from_protobuf_post in H; assumption);
    try (bind_inv H; injection H as <-; apply Pout_list;
         eapply list_comprehension_post; eassumption).
  bind_inv H. injection H as <-.
  destruct (dict_comprehension_post items [] _ (NoDup_nil _) (Forall_nil _) Ha).
  apply (Pout_dict a); assumption.
Qed.

End Postcondition.

Lemma to_jsonable_json_safe (n : nat) :
  forall v r, to_jsonable n v = Ok r -> json_safe r = true.
Proof.
  induction n as [|n IH]; simpl; intros v r H; [discriminate|].
  apply (to_jsonable_body_post (to_jsonable n)
           (fun r => json_safe r = true) (fun r => json_safe r = true)) in H; auto.
  - intros w Hw. destruct w; simpl in *; congruence.
  - intros l Hl. simpl. apply forallb_forall. apply Forall_forall. assumption.
  - intros d Hk Hv. apply json_safe_text_dict; assumption.
Qed.

Lemma to_jsonable_height (n : nat) :
  forall v r, to_jsonable n v = Ok r -> height r <= n.
Proof.
  induction n as [|n IH]; simpl; intros v r H; [discriminate|].
  apply (to_jsonable_body_post (to_jsonable n)
           (fun r => height r <= n) (fun r => height r <= S n)) in H; auto.
  - intros w Hw. destruct w; simpl in *; try discriminate; lia.
  - intros l Hl. simpl. apply le_n_S. apply list_max_map_le. assumption.
  - intros d Hk Hv. apply height_text_dict. assumption.
Qed.

(** ** [MessageToDict] gives a JSON-safe value no higher than the message *)

Lemma fold_setitem_post {A V : Type} (key : A -> string) (val : A -> V)
  (Q : V -> Prop) (xs : list A) :
  Forall (fun x => Q (val x)) xs ->
  forall acc : text_dict V,
    NoDup (map fst acc) -> Forall (fun kv => Q (snd kv)) acc ->
    NoDup (map fst (fold_left (fun js x => dict_setitem js (key x) (val x)) xs acc))
    /\ Forall (fun kv => Q (snd kv))
         (fold_left (fun js x => dict_setitem js (key x) (val x)) xs acc).
Proof.
  induction 1 as [|x xs Hx Hxs IH]; simpl; intros acc Hk Hv; [auto|].
  apply IH; [apply dict_setitem_NoDup | apply dict_setitem_values]; assumption.
Qed.

Lemma field_to_json_post (p u : bool) (k : nat) :
  forall v, pb_height v <= k ->
    json_safe (field_to_json p u v) = true
    /\ height (field_to_json p u v) <= pb_height v.
Proof.
  induction k as [|k IH]; intros v Hv.
  - destruct v; simpl in Hv; lia.
  - destruct v as [b|z|f|s|code symbol|fields|elems]; simpl;
      try (split; [reflexivity | lia]).
    + destruct u; simpl; split; (reflexivity || lia).
    + simpl in Hv. apply le_S_n in Hv. apply list_max_map_le in Hv.
      set (M := list_max (map (fun field => pb_height (snd field)) fields)).
      assert (Forall (fun field : FieldDescriptor * pb_value =>
                        json_safe (field_to_json p u (snd field)) = true
                        /\ height (field_to_json p u (snd field)) <= M) fields) as HQ.
      { apply Forall_forall. intros field Hin.
        rewrite Forall_forall in Hv. specialize (Hv field Hin).
        destruct (IH (snd field) Hv) as [Hs Hh]. split; [assumption|].
        etransitivity; [exact Hh|].
        subst M. apply (list_max_map_In (fun field => pb_height (snd field))).
        assumption. }
      destruct (fold_setitem_post (fun field => field_key p (fst field))
                  (fun field => field_to_json p u (snd field))
                  (fun r => json_safe r = true /\ height r <= M)
                  fields HQ [] (NoDup_nil _) (Forall_nil _)) as [Hk Hq].
      split.
      * apply json_safe_text_dict; [assumption|].
        eapply Forall_impl; [|exact Hq]. simpl. tauto.
      * apply height_text_dict.
        eapply Forall_impl; [|exact Hq]. simpl. tauto.
    + simpl in Hv. apply le_S_n in Hv. apply list_max_map_le in Hv.
      rewrite Forall_forall in Hv. split.
      * apply forallb_forall. intros r Hr. apply in_map_iff in Hr.
        destruct Hr as (x & <- & Hx). apply IH. auto.
      * apply le_n_S. rewrite map_map. apply list_max_map_le.
        apply Forall_forall. intros x Hx.
        etransitivity; [apply IH; auto|].
        apply (list_max_map_In pb_height). assumption.
Qed.

Lemma field_to_json_safe (p u : bool) (v : pb_value) :
  json_safe (field_to_json p u v) = true.
Proof. apply (field_to_json_post p u (pb_height v)). apply Nat.le_refl. Qed.

Lemma field_to_json_height (p u : bool) (v : pb_value) :
  height (field_to_json p u v) <= pb_height v.
Proof. apply (field_to_json_post p u (pb_height v)). apply Nat.le_refl. Qed.

(** ** The result does not depend on stack depth that is not needed *)

Lemma height_pos (v : pyval) : 1 <= height v.
Proof. destruct v; simpl; lia. Qed.

Lemma height_PObj (o : object pyval) (n : nat) :
  height (PObj o) <= S n <->
  match o_message o with
  | Some fields => pb_height (PbMessage fields)
  | None => 0
  end <= n
  /\ match o_to_dict o with
     | Callable (Ok d) => height d
     | _ => 0
     end <= n
  /\ match o_vars o with
     | Some items => Forall (fun kv => height (snd kv) <= n) items
     | None => True
     end.
Proof.
  change (height (PObj o)) with
    (S (Nat.max
          (match o_message o with
           | Some fields => pb_height (PbMessage fields)
           | None => 0
           end)
          (Nat.max
             (match o_to_dict o with
              | Callable (Ok d) => height d
              | _ => 0
              end)
             (match o_vars o with
              | Some items => list_max (map (fun kv => height (snd kv)) items)
              | None => 0
              end)))).
  rewrite <- Nat.succ_le_mono, !Nat.max_lub_iff.
  destruct (o_vars o) as [items|]; [rewrite list_max_map_le; tauto|].
  intuition lia.
Qed.

Section Agree.

Variables f g : pyval -> result pyval.
Variable n : nat.
Hypothesis fg : forall v, height v <= n -> f v = g v.

Lemma list_comprehension_ext (elems : list pyval) :
  Forall (fun v => height v <= n) elems ->
  list_comprehension f elems = list_comprehension g elems.
Proof.
  induction 1 as [|v elems Hv Hrest IH]; simpl; [reflexivity|].
  rewrite (fg v Hv), IH. reflexivity.
Qed.

Lemma dict_comprehension_ext (items : list (pykey * pyval)) :
  Forall (fun kv => height (snd kv) <= n) items ->
  forall built, dict_comprehension f items built = dict_comprehension g items built.
Proof.
  induction 1 as [|[k v] items Hv Hrest IH]; simpl; intros built; [reflexivity|].
  simpl in Hv. rewrite (fg v Hv).
  destruct (py_str_key k); simpl; try reflexivity.
  destruct (g v); simpl; try reflexivity. apply IH.
Qed.

Lemma vars_loop_ext (items : list (pykey * pyval)) :
  Forall (fun kv => height (snd kv) <= n) items ->
  forall converted, vars_loop f items converted = vars_loop g items converted.
Proof.
  induction 1 as [|[key item] items Hv Hrest IH]; simpl; intros converted;
    [reflexivity|].
  simpl in Hv. rewrite (fg item Hv).
  destruct key; try reflexivity.
  destruct (String.prefix "_" s); [apply IH|].
  destruct (g item); simpl; try reflexivity. apply IH.
Qed.

Lemma from_protobuf_ext (o : object pyval) :
  height (PObj o) <= S n -> from_protobuf f o = from_protobuf g o.
Proof.
  intros H. apply height_PObj in H. destruct H as (Hm & Hd & Hv).
  assert (from_vars f o = from_vars g o) as Evars.
  { unfold from_vars. destruct (o_vars o) as [items|]; [|reflexivity].
    rewrite (vars_loop_ext items Hv). reflexivity. }
  assert (from_to_dict f o = from_to_dict g o) as Edict.
  { unfold from_to_dict. destruct (o_to_dict o) as [| |[d|e|s]];
      cbn [bind try_return]; rewrite ?Evars; try reflexivity.
    rewrite (fg d Hd). reflexivity. }
  unfold from_protobuf.
  destruct (hasattr o "ListFields" (o_ListFields o)) as [[|]|e|s];
    cbn [bind andb]; try reflexivity; [|exact Edict].
  destruct (hasattr o "DESCRIPTOR" (o_DESCRIPTOR o)) as [[|]|e|s];
    cbn [bind andb]; try reflexivity; [|exact Edict].
  unfold MessageToDict. destruct (o_message o) as [fields|]; cbn [bind try_return].
  - rewrite fg, Edict; [reflexivity|].
    etransitivity; [apply field_to_json_height | exact Hm].
  - exact Edict.
Qed.

Lemma to_jsonable_body_ext (v : pyval) :
  height v <= S n -> to_jsonable_body f v = to_jsonable_body g v.
Proof.
  destruct v; simpl; intros H; try reflexivity;
    try (apply le_S_n, list_max_map_le in H;
         rewrite (list_comprehension_ext _ H); reflexivity).
  - apply le_S_n, list_max_map_le in H.
    rewrite (dict_comprehension_ext _ H). reflexivity.
  - apply from_protobuf_ext. exact H.
Qed.

End Agree.

Lemma to_jsonable_stable (n : nat) :
  forall m v, height v <= n -> height v <= m -> to_jsonable n v = to_jsonable m v.
Proof.
  induction n as [|n IH]; intros m v Hn Hm.
  - pose proof (height_pos v). lia.
  - destruct m as [|m]; [pose proof (height_pos v); lia|].
    simpl. apply (to_jsonable_body_ext _ _ (height v - 1)).
    + intros w Hw. apply IH; lia.
    + pose proof (height_pos v). lia.
Qed.

(** ** [to_jsonable] on a value that is already JSON-safe *)

Lemma keys_text_cons (k : pykey) (keys : list pykey) (ss : list string) :
  keys_text (k :: keys) = Some ss ->
  exists s ss', k = KStr s /\ ss = s :: ss' /\ keys_text keys = Some ss'.
Proof.
  simpl. destruct k as [s| | | | |]; simpl; try discriminate.
  destruct (keys_text keys) as [ss'|]; [|discriminate].
  intros H. injection H as <-. eauto.
Qed.

Section Identity.

Variable f : pyval -> result pyval.

Lemma list_comprehension_id (elems : list pyval) :
  Forall (fun v => f v = Ok v) elems -> list_comprehension f elems = Ok elems.
Proof.
  induction 1 as [|v elems Hv Hrest IH]; simpl; [reflexivity|].
  rewrite Hv. simpl. rewrite IH. reflexivity.
Qed.

Lemma dict_comprehension_id (items : list (pykey * pyval)) :
  Forall (fun kv => f (snd kv) = Ok (snd kv)) items ->
  forall ss built,
    keys_text (map fst items) = Some ss ->
    NoDup (map fst built ++ ss) ->
    exists out, dict_comprehension f items built = Ok out
                /\ text_items out = text_items built ++ items.
Proof.
  induction 1 as [|[k v] items Hv Hrest IH]; intros ss built Hk Hnd.
  - exists built. simpl. rewrite app_nil_r. auto.
  - change (map fst ((k, v) :: items)) with (k :: map fst items) in Hk.
    apply keys_text_cons in Hk. destruct Hk as (s & ss' & -> & -> & Hk).
    simpl in Hv. simpl. rewrite Hv. simpl.
    assert (~ In s (map fst built)) as Hnew.
    { intros Hin. apply NoDup_remove_2 in Hnd. apply Hnd.
      apply in_or_app. auto. }
    rewrite (dict_setitem_new built s v Hnew).
    destruct (IH ss' (built ++ [(s, v)]) Hk) as (out & Hout & Hitems).
    { rewrite map_app, <- app_assoc. exact Hnd. }
    exists out. split; [assumption|].
    rewrite Hitems. unfold text_items. rewrite map_app, <- app_assoc. reflexivity.
Qed.

End Identity.

Lemma to_jsonable_json_safe_id (n : nat) :
  forall v, json_safe v = true -> height v <= n -> to_jsonable n v = Ok v.
Proof.
  induction n as [|n IH]; intros v Hs Hh.
  - pose proof (height_pos v). lia.
  - destruct v; simpl in *; try reflexivity; try discriminate.
    + apply andb_true_iff in Hs. destruct Hs as [Hk Hv].
      destruct (keys_text (map fst items)) as [ss|] eqn:Ek; [|discriminate].
      apply distinct_NoDup in Hk.
      apply le_S_n, list_max_map_le in Hh.
      rewrite forallb_forall in Hv. rewrite Forall_forall in Hh.
      destruct (dict_comprehension_id (to_jsonable n) items) with (ss := ss)
        (built := @nil (string * pyval)) as (out & -> & Hout); auto.
      { apply Forall_forall. intros kv Hin. apply IH; auto. }
      simpl. rewrite Hout. reflexivity.
    + apply le_S_n, list_max_map_le in Hh.
      rewrite forallb_forall in Hs. rewrite Forall_forall in Hh.
      rewrite list_comprehension_id; [reflexivity|].
      apply Forall_forall. intros w Hin. apply IH; auto.
Qed.

(** ** Dictionaries built by successive assignments *)

Lemma dict_of_keys {V : Type} (pairs : list (string * V)) :
  forall built,
    map fst (dict_of pairs built) = insertion_order (map fst pairs) (map fst built).
Proof.
  unfold dict_of, insertion_order.
  induction pairs as [|[k v] pairs IH]; simpl; intros built; [reflexivity|].
  rewrite IH, dict_setitem_keys. reflexivity.
Qed.

Lemma dict_setitem_In {V : Type} (d : text_dict V) (k : string) (v : V)
  (kv : string * V) :
  In kv (dict_setitem d k v) -> kv = (k, v) \/ In kv d.
Proof.
  induction d as [|[k' v'] d IH]; simpl.
  - intros [<-|[]]. auto.
  - destruct (String.eqb k' k) eqn:E; simpl.
    + apply String.eqb_eq in E. subst k'. intros [<-|H]; auto.
    + intros [<-|H]; [auto|]. destruct (IH H); auto.
Qed.

Lemma dict_of_In {V : Type} (pairs : list (string * V)) (kv : string * V) :
  forall built, In kv (dict_of pairs built) -> In kv pairs \/ In kv built.
Proof.
  unfold dict_of.
  induction pairs as [|[k v] pairs IH]; simpl; intros built H; [auto|].
  destruct (IH _ H) as [Hp|Hb]; [auto|].
  apply dict_setitem_In in Hb. destruct Hb as [->|Hb]; auto.
Qed.

Lemma dict_of_distinct {V : Type} (pairs : list (string * V)) :
  forall built,
    NoDup (map fst built ++ map fst pairs) -> dict_of pairs built = built ++ pairs.
Proof.
  unfold dict_of.
  induction pairs as [|[k v] pairs IH]; simpl; intros built H.
  - rewrite app_nil_r. reflexivity.
  - rewrite dict_setitem_new.
    + rewrite IH; [rewrite <- app_assoc; reflexivity|].
      rewrite map_app, <- app_assoc. exact H.
    + intros Hin. apply NoDup_remove_2 in H. apply H. apply in_or_app. auto.
Qed.

Lemma dict_of_nil {V : Type} (pairs : list (string * V)) :
  forall built, dict_of pairs built = [] -> pairs = [] /\ built = [].
Proof.
  unfold dict_of.
  induction pairs as [|[k v] pairs IH]; simpl; intros built H; [auto|].
  apply IH in H. destruct H as [_ H]. apply dict_setitem_nonempty in H. contradiction.
Qed.

Lemma insertion_order_distinct (keys : list string) :
  forall seen, NoDup (seen ++ keys) -> insertion_order keys seen = seen ++ keys.
Proof.
  unfold insertion_order.
  induction keys as [|k keys IH]; simpl; intros seen H.
  - rewrite app_nil_r. reflexivity.
  - destruct (existsb _ seen) eqn:E.
    + apply existsb_eqb_In in E. apply NoDup_remove_2 in H.
      exfalso. apply H. apply in_or_app. auto.
    + rewrite IH; rewrite <- app_assoc; [reflexivity | exact H].
Qed.

Lemma map_fst_combine {A B : Type} (xs : list A) (ys : list B) :
  List.length xs = List.length ys -> map fst (combine xs ys) = xs.
Proof.
  revert ys. induction xs as [|x xs IH]; destruct ys as [|y ys]; simpl;
    intros H; try discriminate; [reflexivity|].
  rewrite IH; [reflexivity | lia].
Qed.

Lemma dict_comprehension_dict_of (f : pyval -> result pyval)
  (items : list (pykey * pyval)) :
  forall keys values built,
    Forall2 (fun kv s => py_str_key (fst kv) = Ok s) items keys ->
    Forall2 (fun kv r => f (snd kv) = Ok r) items values ->
    dict_comprehension f items built = Ok (dict_of (combine keys values) built).
Proof.
  induction items as [|[k v] items IH]; intros keys values built Hk Hv;
    inversion Hk; inversion Hv; subst; simpl in *; [reflexivity|].
  rewrite H1, H6. simpl. apply IH; assumption.
Qed.

(** ** Bytes and bytearrays *)

Lemma byte_hex_decode (b : byte) (rest : string) :
  hex_decode (byte_hex b ++ rest) =
  match hex_decode rest with
  | Some values => Some (Byte.to_N b :: values)
  | None => None
  end.
Proof.
  destruct b; reflexivity.
Qed.

Lemma byte_hex_length (b : byte) (rest : string) :
  String.length (byte_hex b ++ rest) = S (S (String.length rest)).
Proof. reflexivity. Qed.

Lemma bytes_hex_length (bs : list byte) :
  String.length (bytes_hex bs) = 2 * List.length bs.
Proof.
  induction bs as [|b bs IH]; [reflexivity|].
  cbn [bytes_hex List.length]. rewrite byte_hex_length, IH. lia.
Qed.

Lemma bytes_hex_decode (bs : list byte) :
  hex_decode (bytes_hex bs) = Some (map Byte.to_N bs).
Proof.
  induction bs as [|b bs IH]; [reflexivity|].
  cbn [bytes_hex map]. rewrite byte_hex_decode, IH. reflexivity.
Qed.

(** C3: a bytes value normalises to the text of its lowercase hexadecimal
    digits, two per byte in the order of the bytes, with no separator and
    no prefix: the text is twice as long as the bytes, and reading it back
    as pairs of lowercase hex digits gives the bytes.  The bytes AB 01
    give the text ab01. *)
Theorem to_jsonable_bytes_hex (n : nat) (bs : list byte) :
  to_jsonable (S n) (PBytes bs) = Ok (PStr (bytes_hex bs))
  /\ String.length (bytes_hex bs) = 2 * List.length bs
  /\ hex_decode (bytes_hex bs) = Some (map Byte.to_N bs)
  /\ to_jsonable (S n) (PBytes [xab; x01]) = Ok (PStr "ab01").
Proof.
  split; [reflexivity|]. split; [apply bytes_hex_length|].
  split; [apply bytes_hex_decode | reflexivity].
Qed.



(** ** Mappings *)

Lemma Forall2_length_eq {A B : Type} (R : A -> B -> Prop) (xs : list A)
  (ys : list B) : Forall2 R xs ys -> List.length xs = List.length ys.
Proof. induction 1; simpl; congruence. Qed.

(** C4: a mapping normalises to an object.  With [keys] the texts of the
    original keys and [values] the normalised original values, both in the
    order of the mapping, the object is the dictionary that assigning
    [values] to [keys] in that order builds: its keys are the texts, each
    where it first occurs; each of its values is the normalisation of an
    original value, under the text of that value's key; and when the
    texts are distinct the object has exactly the original entries, in
    the original order. *)
Theorem to_jsonable_mapping (n : nat) (items : list (pykey * pyval))
  (keys : list string) (values : list pyval) :
  Forall2 (fun kv s => py_str_key (fst kv) = Ok s) items keys ->
  Forall2 (fun kv r => to_jsonable n (snd kv) = Ok r) items values ->
  exists built,
    to_jsonable (S n) (PDict items) = Ok (PDict (text_items built))
    /\ map fst built = insertion_order keys []
    /\ (forall kv, In kv built -> In kv (combine keys values))
    /\ (NoDup keys -> built = combine keys values).
Proof.
  intros Hk Hv. exists (dict_of (combine keys values) []).
  assert (map fst (combine keys values) = keys) as Ekeys.
  { apply map_fst_combine.
    rewrite <- (Forall2_length_eq _ _ _ Hk). apply (Forall2_length_eq _ _ _ Hv). }
  split; [|split; [|split]].
  - simpl. rewrite (dict_comprehension_dict_of _ _ keys values [] Hk Hv).
    reflexivity.
  - rewrite dict_of_keys, Ekeys. reflexivity.
  - intros kv Hin. apply dict_of_In in Hin. destruct Hin as [H|[]]. exact H.
  - intros Hnd. apply dict_of_distinct. simpl. rewrite Ekeys. exact Hnd.
Qed.

Lemma to_jsonable_mapping_witness :
  exists built,
    to_jsonable 2 (PDict [(KStr "a", PBytes [xab]); (KInt 2, PTuple []);
                          (KStr "c", PNone)])
    = Ok (PDict (text_items built))
    /\ map fst built = insertion_order ["a"; "2"; "c"] []
    /\ (forall kv, In kv built ->
          In kv (combine ["a"; "2"; "c"] [PStr "ab"; PList []; PNone]))
    /\ (NoDup ["a"; "2"; "c"] ->
          built = combine ["a"; "2"; "c"] [PStr "ab"; PList []; PNone]).
Proof.
  apply (to_jsonable_mapping 1
           [(KStr "a", PBytes [xab]); (KInt 2, PTuple []); (KStr "c", PNone)]
           ["a"; "2"; "c"] [PStr "ab"; PList []; PNone]);
    repeat constructor.
Defined.

(** ** JSON-safe values *)

(** C8: [to_jsonable] returns a JSON-safe value as it is, and so
    normalising the result of a normalisation is that normalisation
    again, for every value (also one on which it raises). *)
Theorem to_jsonable_idempotent (n : nat) (v : pyval) :
  (json_safe v = true -> height v <= n -> to_jsonable n v = Ok v)
  /\ (r <- to_jsonable n v ;; to_jsonable n r) = to_jsonable n v.
Proof.
  split; [apply to_jsonable_json_safe_id|].
  destruct (to_jsonable n v) as [r|e|s] eqn:H; try reflexivity.
  simpl. apply to_jsonable_json_safe_id.
  - exact (to_jsonable_json_safe n v r H).
  - exact (to_jsonable_height n v r H).
Qed.

Lemma to_jsonable_idempotent_witness :
  to_jsonable 4 scenario_payload = Ok scenario_payload
  /\ (r <- to_jsonable 4 scenario_payload ;; to_jsonable 4 r)
     = to_jsonable 4 scenario_payload.
Proof.
  destruct (to_jsonable_idempotent 4 scenario_payload) as [Hid Hagain].
  split; [apply Hid; [reflexivity | vm_compute; lia] | exact Hagain].
Defined.

(** C9, as the code has it: [to_jsonable] reads and writes no state, and
    any two activations that have enough stack for the value return the
    same result.  How much stack is left is the one thing besides the
    argument that an activation sees, and it can show in the result. *)
Theorem to_jsonable_deterministic (n m : nat) (v : pyval) :
  height v <= n -> height v <= m -> to_jsonable n v = to_jsonable m v.
Proof. apply to_jsonable_stable. Qed.

Lemma to_jsonable_deterministic_witness :
  to_jsonable 3 with_to_dict = to_jsonable 1000 with_to_dict.
Proof.
  apply (to_jsonable_deterministic 3 1000 with_to_dict); vm_compute; lia.
Defined.

(** C9 as stated fails: the same object normalises to the list its
    [to_dict] gives when the stack has room for it, and to its display
    text when the stack is one activation short, the handler of line 46
    having dropped the [RecursionError]. *)
Lemma to_jsonable_depends_on_stack :
  to_jsonable 3 with_to_dict = Ok (PList [PInt 1; PStr "ab01"])
  /\ to_jsonable 2 with_to_dict = Ok (PStr "telemetry")
  /\ to_jsonable 2 with_to_dict <> to_jsonable 3 with_to_dict.
Proof. repeat split; try reflexivity. discriminate. Qed.

(** ** Attribute probes and signals *)

Lemma hasattr_answers (o : object pyval) (name : string) (present : bool) :
  present || lacks o name = true -> hasattr o name present = Ok present.
Proof.
  unfold hasattr, lacks. destruct present; [reflexivity|]. simpl.
  destruct (o_getattr o name) as [[]|]; (reflexivity || discriminate).
Qed.

Lemma hasattr_uninterrupted (o : object pyval) (name : string) (present : bool) :
  lookup_interrupts o name = false -> interrupts (hasattr o name present) = false.
Proof.
  unfold hasattr, lookup_interrupts. destruct present; [reflexivity|].
  destruct (o_getattr o name) as [[]|]; (reflexivity || discriminate).
Qed.

Lemma bind_uninterrupted {A B : Type} (m : result A) (k : A -> result B) :
  interrupts m = false -> (forall a, m = Ok a -> interrupts (k a) = false) ->
  interrupts (bind m k) = false.
Proof.
  destruct m as [a|e|s]; simpl; intros Hm Hk; auto.
Qed.

Lemma try_return_uninterrupted {A : Type} (body rest : result A) :
  interrupts body = false -> interrupts rest = false ->
  interrupts (try_return body rest) = false.
Proof.
  destruct body as [a|e|s]; simpl; auto.
Qed.

Lemma py_str_key_uninterrupted (k : pykey) :
  key_interrupts k = false -> interrupts (py_str_key k) = false.
Proof.
  destruct k as [s|z|[]| |bs|text]; simpl; auto.
Qed.

Section Uninterrupted.

Variable f : pyval -> result pyval.
Hypothesis f_quiet : forall v, no_signal v = true -> interrupts (f v) = false.

Lemma list_comprehension_uninterrupted (elems : list pyval) :
  forallb no_signal elems = true ->
  interrupts (list_comprehension f elems) = false.
Proof.
  induction elems as [|v elems IH]; simpl; intros H; [reflexivity|].
  apply andb_true_iff in H. destruct H as [Hv Hrest].
  apply bind_uninterrupted; [apply f_quiet; exact Hv|].
  intros item _. apply bind_uninterrupted; [apply IH; exact Hrest | reflexivity].
Qed.

Lemma dict_comprehension_uninterrupted (items : list (pykey * pyval)) :
  forallb (fun kv => negb (key_interrupts (fst kv)) && no_signal (snd kv)) items
  = true ->
  forall built, interrupts (dict_comprehension f items built) = false.
Proof.
  induction items as [|[k v] items IH]; simpl; intros H built; [reflexivity|].
  rewrite !andb_true_iff, negb_true_iff in H. destruct H as [[Hk Hv] Hrest].
  apply bind_uninterrupted; [apply py_str_key_uninterrupted; exact Hk|].
  intros key _. apply bind_uninterrupted; [apply f_quiet; exact Hv|].
  intros item _. apply IH. exact Hrest.
Qed.

Lemma vars_loop_uninterrupted (items : list (pykey * pyval)) :
  forallb (fun kv => no_signal (snd kv)) items = true ->
  forall converted, interrupts (vars_loop f items converted) = false.
Proof.
  induction items as [|[key item] items IH]; simpl; intros H converted;
    [reflexivity|].
  apply andb_true_iff in H. destruct H as [Hv Hrest].
  destruct key; try reflexivity.
  destruct (String.prefix "_" s); [apply IH; exact Hrest|].
  apply bind_uninterrupted; [apply f_quiet; exact Hv|].
  intros jsonable _. apply IH. exact Hrest.
Qed.

(** What the three guarded attempts and the fallback of a signal-free
    object cannot do. *)
Lemma attempts_uninterrupted (o : object pyval) :
  (forall p u fields, no_signal (field_to_json p u (PbMessage fields)) = true) ->
  no_signal (PObj o) = true ->
  interrupts (d <- MessageToDict o true true ;; f d) = false
  /\ (forall outcome, o_to_dict o = Callable outcome ->
        interrupts (d <- outcome ;; f d) = false)
  /\ (forall items, o_vars o = Some items ->
        interrupts (vars_loop f items []) = false)
  /\ interrupts (str_fallback o) = false.
Proof.
  intros Hmsg H. simpl in H. rewrite !andb_true_iff, !negb_true_iff in H.
  destruct H as [[[[[[_ _] _] _] Hstr] Hdict] Hvars].
  split; [|split; [|split]].
  - unfold MessageToDict. destruct (o_message o) as [fields|]; cbn [bind];
      [apply f_quiet, Hmsg | reflexivity].
  - intros outcome E. rewrite E in Hdict.
    destruct outcome as [d|e|s]; simpl; [apply f_quiet; exact Hdict | reflexivity
                                        | discriminate].
  - intros items E. rewrite E in Hvars. apply vars_loop_uninterrupted. exact Hvars.
  - unfold str_fallback. destruct (o_str o); simpl in *; auto.
Qed.

Lemma from_protobuf_uninterrupted (o : object pyval) :
  (forall p u fields, no_signal (field_to_json p u (PbMessage fields)) = true) ->
  no_signal (PObj o) = true ->
  interrupts (from_protobuf f o) = false.
Proof.
  intros Hmsg H.
  destruct (attempts_uninterrupted o Hmsg H) as (H5 & H6 & H7 & H8).
  simpl in H. rewrite !andb_true_iff, !negb_true_iff in H.
  destruct H as [[[[[[L1 L2] L3] L4] _] _] _].
  assert (interrupts (from_vars f o) = false) as Hvars.
  { unfold from_vars. destruct (o_vars o) as [items|] eqn:E.
    - specialize (H7 items eq_refl).
      destruct (vars_loop f items []) as [[|kv converted]|e|s]; auto.
    - apply bind_uninterrupted; [apply hasattr_uninterrupted; exact L4 | auto]. }
  assert (interrupts (from_to_dict f o) = false) as Hdict.
  { unfold from_to_dict. destruct (o_to_dict o) as [| |outcome] eqn:E.
    - apply bind_uninterrupted; [apply hasattr_uninterrupted; exact L3 | auto].
    - exact Hvars.
    - apply try_return_uninterrupted; [apply H6; reflexivity | exact Hvars]. }
  unfold from_protobuf.
  apply bind_uninterrupted; [apply hasattr_uninterrupted; exact L1|].
  intros a _. apply bind_uninterrupted.
  { destruct a; [apply hasattr_uninterrupted; exact L2 | reflexivity]. }
  intros b _. destruct (a && b); [|exact Hdict].
  apply try_return_uninterrupted; assumption.
Qed.

End Uninterrupted.

Lemma keys_text_no_signal (items : list (pykey * pyval)) (ss : list string) :
  keys_text (map fst items) = Some ss ->
  forall kv, In kv items -> exists s, fst kv = KStr s.
Proof.
  revert ss. induction items as [|[k v] items IH]; intros ss H kv Hin; [inversion Hin|].
  change (map fst ((k, v) :: items)) with (k :: map fst items) in H.
  apply keys_text_cons in H. destruct H as (s & ss' & -> & -> & Hrest).
  destruct Hin as [<-|Hin]; [exists s; reflexivity | eapply IH; eassumption].
Qed.

(** A JSON-safe value is plain data and holds nothing that raises
    outside [Exception]. *)
Lemma json_safe_plain (n : nat) :
  forall v, height v <= n -> json_safe v = true ->
            plain v = true /\ no_signal v = true.
Proof.
  induction n as [|n IH]; intros v Hh Hs.
  - pose proof (height_pos v). lia.
  - destruct v; simpl in Hs |- *; try discriminate; auto.
    + apply andb_true_iff in Hs. destruct Hs as [Hk Hv].
      destruct (keys_text (map fst items)) as [ss|] eqn:Ek; [|discriminate].
      simpl in Hh. apply le_S_n, list_max_map_le in Hh.
      rewrite forallb_forall in Hv. rewrite Forall_forall in Hh.
      split; apply forallb_forall; intros kv Hin;
        destruct (keys_text_no_signal items ss Ek kv Hin) as [s Es];
        rewrite Es; simpl; apply (IH (snd kv)); auto.
    + simpl in Hh. apply le_S_n, list_max_map_le in Hh.
      rewrite forallb_forall in Hs. rewrite Forall_forall in Hh.
      split; apply forallb_forall; intros w Hin; apply (IH w); auto.
Qed.

Lemma field_to_json_no_signal (p u : bool) (fields : message) :
  no_signal (field_to_json p u (PbMessage fields)) = true.
Proof.
  apply (json_safe_plain (height (field_to_json p u (PbMessage fields))));
    [apply Nat.le_refl | apply field_to_json_safe].
Qed.

Lemma to_jsonable_uninterrupted (n : nat) :
  forall v, no_signal v = true -> interrupts (to_jsonable n v) = false.
Proof.
  induction n as [|n IH]; intros v H; [reflexivity|].
  destruct v; simpl in H |- *; try reflexivity;
    try (apply bind_uninterrupted;
         [apply list_comprehension_uninterrupted; assumption | reflexivity]).
  - apply bind_uninterrupted;
      [apply dict_comprehension_uninterrupted; assumption | reflexivity].
  - apply from_protobuf_uninterrupted;
      [exact IH | apply field_to_json_no_signal | exact H].
Qed.

(** ** Totality *)

Lemma from_protobuf_returns (f : pyval -> result pyval) (o : object pyval)
  (text : string) :
  o_str o = Ok text -> probes_answer o = true ->
  interrupts (d <- MessageToDict o true true ;; f d) = false ->
  (forall outcome, o_to_dict o = Callable outcome ->
     interrupts (d <- outcome ;; f d) = false) ->
  (forall items, o_vars o = Some items ->
     interrupts (vars_loop f items []) = false) ->
  exists r, from_protobuf f o = Ok r.
Proof.
  intros Hs Hp H5 H6 H7.
  unfold probes_answer in Hp. rewrite !andb_true_iff in Hp.
  destruct Hp as [[[P1 P2] P3] P4].
  assert (exists r, from_vars f o = Ok r) as Hvars.
  { unfold from_vars, str_fallback. rewrite Hs.
    destruct (o_vars o) as [items|].
    - specialize (H7 items eq_refl).
      destruct (vars_loop f items []) as [[|kv converted]|e|s]; simpl; eauto.
      discriminate.
    - rewrite (hasattr_answers o "__dict__" false P4). simpl. eauto. }
  assert (exists r, from_to_dict f o = Ok r) as Hdict.
  { unfold from_to_dict, try_return.
    destruct (o_to_dict o) as [| |outcome].
    - rewrite (hasattr_answers o "to_dict" false P3). exact Hvars.
    - exact Hvars.
    - specialize (H6 outcome eq_refl).
      destruct (bind outcome _); [eauto | exact Hvars | discriminate]. }
  unfold from_protobuf.
  rewrite (hasattr_answers o "ListFields" _ P1). cbn [bind].
  assert ((if o_ListFields o then hasattr o "DESCRIPTOR" (o_DESCRIPTOR o)
           else Ok false)
          = Ok (o_ListFields o && o_DESCRIPTOR o)) as ->.
  { destruct (o_ListFields o); [|reflexivity].
    rewrite (hasattr_answers o "DESCRIPTOR" _ P2). reflexivity. }
  cbn [bind].
  destruct (o_ListFields o && (o_ListFields o && o_DESCRIPTOR o)); [|exact Hdict].
  unfold try_return.
  destruct (bind (MessageToDict o true true) _); [eauto | exact Hdict | discriminate].
Qed.

Lemma list_comprehension_returns (f : pyval -> result pyval) (elems : list pyval) :
  Forall (fun v => exists r, f v = Ok r) elems ->
  exists out, list_comprehension f elems = Ok out.
Proof.
  induction 1 as [|v elems [r Hr] Hrest [out IH]]; simpl; [eauto|].
  rewrite Hr, IH. simpl. eauto.
Qed.

Lemma dict_comprehension_returns (f : pyval -> result pyval)
  (items : list (pykey * pyval)) :
  Forall (fun kv => (exists s, py_str_key (fst kv) = Ok s)
                    /\ exists r, f (snd kv) = Ok r) items ->
  forall built, exists out, dict_comprehension f items built = Ok out.
Proof.
  induction 1 as [|[k v] items [[s Hs] [r Hr]] Hrest IH]; simpl; intros built;
    [eauto|].
  simpl in Hs, Hr. rewrite Hs, Hr. simpl. apply IH.
Qed.

(** The elements of a container are lower than the container, and the
    boolean condition on them holds for each. *)
Ltac elements Hh Hs :=
  simpl in Hh; apply le_S_n, list_max_map_le in Hh;
  rewrite forallb_forall in Hs; rewrite Forall_forall in Hh.

Lemma to_jsonable_returns (n : nat) :
  forall v, height v <= n -> str_succeeds v = true ->
            probes_succeed v = true -> no_signal v = true ->
            exists r, to_jsonable n v = Ok r.
Proof.
  induction n as [|n IH]; intros v Hh Hs Hp Hq.
  - pose proof (height_pos v). lia.
  - destruct v; simpl in Hs, Hp |- *; eauto;
      try (elements Hh Hs; simpl in Hq;
           rewrite forallb_forall in Hp; rewrite forallb_forall in Hq;
           destruct (list_comprehension_returns (to_jsonable n) elems) as [out ->];
           [apply Forall_forall; intros w Hin; apply IH; auto | simpl; eauto]).
    + eexists. reflexivity.
    + elements Hh Hs. simpl in Hq.
      rewrite forallb_forall in Hp. rewrite forallb_forall in Hq.
      destruct (dict_comprehension_returns (to_jsonable n) items) with
        (built := @nil (string * pyval)) as [out ->]; [|simpl; eauto].
      apply Forall_forall. intros kv Hin.
      specialize (Hs kv Hin). apply andb_true_iff in Hs. destruct Hs as [Hk Hv].
      specialize (Hq kv Hin). apply andb_true_iff in Hq. destruct Hq as [_ Hq].
      split; [destruct (py_str_key (fst kv)); [eauto | discriminate..]|].
      apply IH; auto.
    + destruct (o_str o) as [text|e|s] eqn:E; try discriminate.
      destruct (attempts_uninterrupted (to_jsonable n) (to_jsonable_uninterrupted n)
                  o field_to_json_no_signal Hq) as (H5 & H6 & H7 & _).
      eapply from_protobuf_returns; eassumption.
Qed.

Lemma opaque_str_fallback (f : pyval -> result pyval) (o : object pyval) :
  opaque o = true -> from_protobuf f o = str_fallback o.
Proof.
  unfold opaque, probes_answer. rewrite !andb_true_iff, negb_true_iff.
  intros [[[H5 H6] H7] [[[P1 P2] P3] P4]].
  unfold from_protobuf.
  rewrite (hasattr_answers o "ListFields" _ P1). cbn [bind].
  assert ((if o_ListFields o then hasattr o "DESCRIPTOR" (o_DESCRIPTOR o)
           else Ok false)
          = Ok (o_ListFields o && o_DESCRIPTOR o)) as ->.
  { destruct (o_ListFields o); [|reflexivity].
    rewrite (hasattr_answers o "DESCRIPTOR" _ P2). reflexivity. }
  cbn [bind]. rewrite H5, andb_false_r.
  unfold from_to_dict, from_vars.
  destruct (o_to_dict o); try discriminate;
    destruct (o_vars o); try discriminate;
    rewrite ?(hasattr_answers o "to_dict" false P3),
      ?(hasattr_answers o "__dict__" false P4); reflexivity.
Qed.

(** C1, as the code has it: [to_jsonable] returns a JSON-safe value for
    every value that fits in the stack, in which what no handler guards
    succeeds (the [str(k)] of mapping keys and, for the objects reached
    through containers, [str(value)] and the attribute probes of lines
    29, 43 and 49), and in which nothing raises outside [Exception].  An
    object on which no rule of lines 29-59 is entered, each probe
    answering [False], comes out as its display text. *)
Theorem to_jsonable_total (n : nat) (v : pyval) :
  height v <= n -> str_succeeds v = true ->
  probes_succeed v = true -> no_signal v = true ->
  (exists r, to_jsonable n v = Ok r /\ json_safe r = true)
  /\ (forall o text, opaque o = true -> o_str o = Ok text ->
        to_jsonable n (PObj o) = Ok (PStr text)).
Proof.
  intros Hh Hs Hp Hq. split.
  - destruct (to_jsonable_returns n v Hh Hs Hp Hq) as [r Hr].
    exists r. split; [exact Hr | exact (to_jsonable_json_safe n v r Hr)].
  - intros o text Ho E.
    destruct n as [|n]; [pose proof (height_pos v); lia|].
    simpl. rewrite (opaque_str_fallback _ o Ho).
    unfold str_fallback. rewrite E. reflexivity.
Qed.

Lemma to_jsonable_total_witness :
  (exists r,
     to_jsonable 5 (PDict [(KInt 7, PSet [PBytes [xab; x01]; with_to_dict])])
     = Ok r /\ json_safe r = true)
  /\ (forall o text, opaque o = true -> o_str o = Ok text ->
        to_jsonable 5 (PObj o) = Ok (PStr text)).
Proof.
  apply (to_jsonable_total 5
           (PDict [(KInt 7, PSet [PBytes [xab; x01]; with_to_dict])]));
    [vm_compute; lia | reflexivity | reflexivity | reflexivity].
Defined.

(** C1 as stated fails: an object whose [__str__] raises, with nothing a
    rule of lines 29-59 can use, makes [to_jsonable] raise, whatever the
    stack. *)
Lemma to_jsonable_unprintable_raises :
  (forall n r, to_jsonable n unprintable <> Ok r)
  /\ to_jsonable 1000 unprintable = Raise (Error "ValueError")
  /\ height unprintable <= 1000.
Proof.
  split; [|split; [reflexivity | vm_compute; lia]].
  intros [|n] r; discriminate.
Qed.

(** ** Protocol-buffer messages *)

Lemma fold_left_map_fuse {A B C : Type} (step : C -> B -> C) (g : A -> B)
  (xs : list A) :
  forall acc, fold_left step (map g xs) acc = fold_left (fun a x => step a (g x)) xs acc.
Proof.
  induction xs as [|x xs IH]; simpl; intros acc; [reflexivity | apply IH].
Qed.

Lemma field_to_json_message (p u : bool) (fields : message) :
  field_to_json p u (PbMessage fields)
  = PDict (text_items (dict_of (message_entries p u fields) [])).
Proof.
  unfold dict_of, message_entries. rewrite fold_left_map_fuse. reflexivity.
Qed.

(** C2: an object that has [ListFields] and [DESCRIPTOR] and is a message
    normalises to the mapping [MessageToDict] makes of its populated
    fields: each field under its declared name (the tag number and the
    JSON name of the descriptor play no part), an enumerated field as its
    integer code, and that mapping as the mapping rule leaves it, which is
    unchanged.  When the conversion, or the normalisation of what it
    gave, raises, the error is dropped and the value is handled by the
    rules from line 43 on. *)
Theorem to_jsonable_message (n : nat) (o : object pyval) :
  o_ListFields o = true -> o_DESCRIPTOR o = true ->
  (forall fields,
      o_message o = Some fields -> pb_height (PbMessage fields) <= n ->
      exists js,
        to_jsonable (S n) (PObj o) = to_jsonable n (PDict (text_items js))
        /\ to_jsonable (S n) (PObj o) = Ok (PDict (text_items js))
        /\ js = dict_of (message_entries true true fields) []
        /\ map fst js
           = insertion_order (map (fun fld => fd_name (fst fld)) fields) []
        /\ (NoDup (map (fun fld => fd_name (fst fld)) fields) ->
            js = map (fun fld => (fd_name (fst fld),
                                  field_to_json true true (snd fld))) fields))
  /\ (forall code symbol, field_to_json true true (PbEnum code symbol) = PInt code)
  /\ (forall e,
        (d <- MessageToDict o true true ;; to_jsonable n d) = Raise e ->
        to_jsonable (S n) (PObj o) = from_to_dict (to_jsonable n) o).
Proof.
  intros HL HD. split; [|split; [reflexivity|]].
  - intros fields Hm Hh. exists (dict_of (message_entries true true fields) []).
    assert (map fst (message_entries true true fields)
            = map (fun fld => fd_name (fst fld)) fields) as Ekeys.
    { unfold message_entries. rewrite map_map. reflexivity. }
    assert (to_jsonable n (field_to_json true true (PbMessage fields))
            = Ok (field_to_json true true (PbMessage fields))) as Eid.
    { apply to_jsonable_json_safe_id; [apply field_to_json_safe|].
      etransitivity; [apply field_to_json_height | exact Hh]. }
    assert (to_jsonable (S n) (PObj o)
            = Ok (field_to_json true true (PbMessage fields))) as Eobj.
    { cbn [to_jsonable to_jsonable_body]. unfold from_protobuf, MessageToDict.
      rewrite HL, HD, Hm. cbn [andb bind]. rewrite Eid. reflexivity. }
    rewrite field_to_json_message in Eid, Eobj.
    split; [congruence|]. split; [exact Eobj|]. split; [reflexivity|split].
    + rewrite dict_of_keys, Ekeys. reflexivity.
    + intros Hnd. apply dict_of_distinct. simpl. rewrite Ekeys. exact Hnd.
  - intros e He. cbn [to_jsonable to_jsonable_body]. unfold from_protobuf.
    rewrite HL, HD, He. reflexivity.
Qed.

Lemma to_jsonable_message_witness :
  (forall fields,
      Some [(field 1 "latitude_i" "latitudeI", PbInt 377749);
            (field 2 "longitude_i" "longitudeI", PbInt (-1224194))] = Some fields ->
      pb_height (PbMessage fields) <= 2 ->
      exists js,
        to_jsonable 3 position = to_jsonable 2 (PDict (text_items js))
        /\ to_jsonable 3 position = Ok (PDict (text_items js))
        /\ js = dict_of (message_entries true true fields) []
        /\ map fst js
           = insertion_order (map (fun fld => fd_name (fst fld)) fields) []
        /\ (NoDup (map (fun fld => fd_name (fst fld)) fields) ->
            js = map (fun fld => (fd_name (fst fld),
                                  field_to_json true true (snd fld))) fields))
  /\ (forall code symbol, field_to_json true true (PbEnum code symbol) = PInt code)
  /\ (forall e,
        (d <- Ok (PDict [(KStr "latitude_i", PInt 377749);
                         (KStr "longitude_i", PInt (-1224194))]) ;;
         to_jsonable 2 d) = Raise e ->
        to_jsonable 3 position
        = from_to_dict (to_jsonable 2)
            {| o_ListFields := true; o_DESCRIPTOR := true;
               o_message :=
                 Some [(field 1 "latitude_i" "latitudeI", PbInt 377749);
                       (field 2 "longitude_i" "longitudeI", PbInt (-1224194))];
               o_to_dict := Absent; o_vars := None; o_str := Ok "";
               o_getattr := lookup_fails |}).
Proof.
  apply (to_jsonable_message 2
           {| o_ListFields := true; o_DESCRIPTOR := true;
              o_message :=
                Some [(field 1 "latitude_i" "latitudeI", PbInt 377749);
                      (field 2 "longitude_i" "longitudeI", PbInt (-1224194))];
              o_to_dict := Absent; o_vars := None; o_str := Ok "";
              o_getattr := lookup_fails |});
    reflexivity.
Defined.

(** The example of the specification: names as keys, integers unchanged;
    without [preserving_proto_field_name] the keys would be the JSON
    names. *)
Example to_jsonable_position :
  to_jsonable 3 position
  = Ok (PDict [(KStr "latitude_i", PInt 377749);
               (KStr "longitude_i", PInt (-1224194))])
  /\ field_to_json false true
       (PbMessage [(field 1 "latitude_i" "latitudeI", PbInt 377749)])
     = PDict [(KStr "latitudeI", PInt 377749)].
Proof. split; reflexivity. Qed.

(** ** Exported attributes *)

Lemma skips_protobuf_from_to_dict (f : pyval -> result pyval) (o : object pyval) :
  skips_protobuf f o = true -> from_protobuf f o = from_to_dict f o.
Proof.
  unfold skips_protobuf, from_protobuf, raises.
  destruct (o_ListFields o); [destruct (o_DESCRIPTOR o)|]; intros H.
  - cbn [hasattr bind andb].
    destruct (bind (MessageToDict o true true) _); (discriminate || reflexivity).
  - cbn [hasattr bind]. fold (hasattr o "DESCRIPTOR" false).
    rewrite (hasattr_answers o "DESCRIPTOR" false H). reflexivity.
  - rewrite (hasattr_answers o "ListFields" false H). reflexivity.
Qed.

Lemma reaches_vars_from_vars (f : pyval -> result pyval) (o : object pyval) :
  reaches_vars f o = true -> from_protobuf f o = from_vars f o.
Proof.
  unfold reaches_vars. intros H. apply andb_true_iff in H. destruct H as [H5 H6].
  rewrite (skips_protobuf_from_to_dict f o H5).
  unfold from_to_dict, try_return, raises in *.
  destruct (o_to_dict o) as [| |outcome].
  - rewrite (hasattr_answers o "to_dict" false H6). reflexivity.
  - reflexivity.
  - destruct (bind outcome _); (discriminate || reflexivity).
Qed.

Lemma from_vars_not_empty (f : pyval -> result pyval) (o : object pyval) :
  from_vars f o <> Ok (PDict []).
Proof.
  unfold from_vars, str_fallback.
  destruct (o_vars o) as [items|].
  - destruct (vars_loop f items []) as [[|kv converted]|e|s];
      destruct (o_str o); discriminate.
  - destruct (hasattr o "__dict__" false); destruct (o_str o); discriminate.
Qed.

Lemma exported_cons (s : string) (names : list string) (item : pyval)
  (items : list (pykey * pyval)) :
  exported (s :: names) ((KStr s, item) :: items)
  = if String.prefix "_" s then exported names items
    else (s, item) :: exported names items.
Proof.
  unfold exported. simpl. destruct (String.prefix "_" s); reflexivity.
Qed.

Lemma vars_loop_exported (f : pyval -> result pyval) (items : list (pykey * pyval)) :
  forall names values converted,
    keys_text (map fst items) = Some names ->
    Forall2 (fun kv r => f (snd kv) = Ok r) (exported names items) values ->
    vars_loop f items converted
    = Ok (dict_of (combine (map fst (exported names items)) values) converted).
Proof.
  induction items as [|[key item] items IH]; intros names values converted Hk Hv.
  - simpl in Hk. injection Hk as <-. reflexivity.
  - change (map fst ((key, item) :: items)) with (key :: map fst items) in Hk.
    apply keys_text_cons in Hk. destruct Hk as (s & names' & -> & -> & Hk).
    rewrite exported_cons in Hv |- *. simpl.
    destruct (String.prefix "_" s); [apply IH; assumption|].
    inversion Hv as [|kv r rest values' Hr Hrest]; subst.
    simpl in Hr. rewrite Hr. simpl. apply IH; assumption.
Qed.

(** C6: when lines 29-47 return nothing for an object that has a
    [__dict__], the result is never the empty object.  When every
    attribute name is text, the attributes whose names do not start with
    an underscore are the ones kept, each with its value normalised; with
    none kept the object comes out as [str(value)]. *)
Theorem to_jsonable_exported_attributes (n : nat) (o : object pyval)
  (items : list (pykey * pyval)) :
  reaches_vars (to_jsonable n) o = true ->
  o_vars o = Some items ->
  to_jsonable (S n) (PObj o) <> Ok (PDict [])
  /\ (forall names values,
        keys_text (map fst items) = Some names ->
        Forall2 (fun kv r => to_jsonable n (snd kv) = Ok r)
          (exported names items) values ->
        Forall (fun kv => String.prefix "_" (fst kv) = false) (exported names items)
        /\ to_jsonable (S n) (PObj o)
           = match exported names items with
             | [] => str_fallback o
             | _ :: _ =>
                 Ok (PDict (text_items
                              (dict_of (combine (map fst (exported names items))
                                          values) [])))
             end).
Proof.
  intros Hreach Hvars.
  assert (to_jsonable (S n) (PObj o) = from_vars (to_jsonable n) o) as E.
  { simpl. apply reaches_vars_from_vars. exact Hreach. }
  rewrite E. split; [apply from_vars_not_empty|].
  intros names values Hk Hv. split.
  - apply Forall_forall. intros kv Hin. unfold exported in Hin.
    apply filter_In in Hin. destruct Hin as [_ Hp].
    apply negb_true_iff in Hp. exact Hp.
  - unfold from_vars. rewrite Hvars.
    rewrite (vars_loop_exported _ items names values [] Hk Hv).
    destruct (exported names items) as [|kv public] eqn:Ep.
    + inversion Hv; subst. reflexivity.
    + inversion Hv as [|? r ? values' Hr Hrest]; subst.
      destruct (dict_of _ []) as [|kv' d] eqn:Ed; [|reflexivity].
      apply dict_of_nil in Ed. destruct Ed as [Ed _]. discriminate.
Qed.

Lemma to_jsonable_exported_attributes_witness :
  to_jsonable 2
    (PObj {| o_ListFields := false; o_DESCRIPTOR := false; o_message := None;
             o_to_dict := Callable (Raise TypeError);
             o_vars := Some [(KStr "_lock", PNone); (KStr "snr", PBytes [x0f])];
             o_str := Ok "node";
             o_getattr := lookup_fails |})
  <> Ok (PDict [])
  /\ (forall names values,
        keys_text (map fst [(KStr "_lock", PNone); (KStr "snr", PBytes [x0f])])
        = Some names ->
        Forall2 (fun kv r => to_jsonable 1 (snd kv) = Ok r)
          (exported names [(KStr "_lock", PNone); (KStr "snr", PBytes [x0f])])
          values ->
        Forall (fun kv => String.prefix "_" (fst kv) = false)
          (exported names [(KStr "_lock", PNone); (KStr "snr", PBytes [x0f])])
        /\ to_jsonable 2
             (PObj {| o_ListFields := false; o_DESCRIPTOR := false;
                      o_message := None;
                      o_to_dict := Callable (Raise TypeError);
                      o_vars := Some [(KStr "_lock", PNone);
                                      (KStr "snr", PBytes [x0f])];
                      o_str := Ok "node";
                      o_getattr := lookup_fails |})
           = match exported names [(KStr "_lock", PNone);
                                   (KStr "snr", PBytes [x0f])] with
             | [] =>
                 str_fallback
                   {| o_ListFields := false; o_DESCRIPTOR := false;
                      o_message := None;
                      o_to_dict := Callable (Raise TypeError);
                      o_vars := Some [(KStr "_lock", PNone);
                                      (KStr "snr", PBytes [x0f])];
                      o_str := Ok "node";
                      o_getattr := lookup_fails |}
             | _ :: _ =>
                 Ok (PDict
                       (text_items
                          (dict_of
                             (combine
                                (map fst
                                   (exported names
                                      [(KStr "_lock", PNone);
                                       (KStr "snr", PBytes [x0f])]))
                                values) [])))
             end).
Proof.
  apply (to_jsonable_exported_attributes 1
           {| o_ListFields := false; o_DESCRIPTOR := false; o_message := None;
              o_to_dict := Callable (Raise TypeError);
              o_vars := Some [(KStr "_lock", PNone); (KStr "snr", PBytes [x0f])];
              o_str := Ok "node";
              o_getattr := lookup_fails |}
           [(KStr "_lock", PNone); (KStr "snr", PBytes [x0f])]);
    reflexivity.
Defined.

(** An object all of whose attributes are private, and one with a public
    attribute. *)
Example to_jsonable_private_only :
  to_jsonable 2
    (PObj {| o_ListFields := false; o_DESCRIPTOR := false; o_message := None;
             o_to_dict := Absent;
             o_vars := Some [(KStr "_cache", PInt 1)]; o_str := Ok "node";
             o_getattr := lookup_fails |})
  = Ok (PStr "node")
  /\ to_jsonable 2
       (PObj {| o_ListFields := false; o_DESCRIPTOR := false; o_message := None;
                o_to_dict := Absent;
                o_vars := Some [(KStr "_cache", PInt 1); (KStr "snr", PBytes [x0f])];
                o_str := Ok "node";
                o_getattr := lookup_fails |})
     = Ok (PDict [(KStr "snr", PStr "0f")]).
Proof. split; reflexivity. Qed.

(** ** The relay *)

(** C5: with no [packet] among the extra keyword arguments (Python binds
    that name to the parameter), a notification that is a mapping holding
    a mapping under the key [packet] (the wrapper of line 66) resolves to
    that inner mapping, as it is and whatever it holds: one level is
    removed and no more.  Every other notification resolves to itself.
    So a payload wrapped once is relayed like the payload sent directly. *)
Theorem unwrap_packet_one_level (json_dumps : pyval -> bool -> result string)
  (packet : pyval) (kwargs : list (pykey * pyval)) :
  dict_get kwargs "packet" = None ->
  (forall items inner,
      packet = PDict items -> dict_get items "packet" = Some (PDict inner) ->
      unwrap_packet packet kwargs = PDict inner)
  /\ ((forall items inner,
          packet = PDict items -> dict_get items "packet" <> Some (PDict inner)) ->
      unwrap_packet packet kwargs = packet)
  /\ (forall items inner depth interface stdout,
        packet = PDict items -> dict_get items "packet" = Some (PDict inner) ->
        (forall inner', dict_get inner "packet" <> Some (PDict inner')) ->
        on_receive json_dumps depth packet interface kwargs stdout
        = on_receive json_dumps depth (PDict inner) interface kwargs stdout).
Proof.
  intros Hkw.
  assert (forall items inner,
             packet = PDict items -> dict_get items "packet" = Some (PDict inner) ->
             unwrap_packet packet kwargs = PDict inner) as Hwrap.
  { intros items inner -> Hget. unfold unwrap_packet. rewrite Hget. reflexivity. }
  assert (forall p,
             (forall items inner,
                 p = PDict items -> dict_get items "packet" <> Some (PDict inner)) ->
             unwrap_packet p kwargs = p) as Hplain.
  { intros p Hnot. unfold unwrap_packet.
    destruct p; try reflexivity.
    - rewrite Hkw. reflexivity.
    - destruct (dict_get items "packet") as [[]|] eqn:Eg; try reflexivity.
      exfalso. eapply Hnot; [reflexivity | exact Eg]. }
  split; [exact Hwrap|]. split; [apply Hplain|].
  intros items inner depth interface stdout Hp Hget Hinner.
  unfold on_receive. rewrite (Hwrap items inner Hp Hget).
  rewrite (Hplain (PDict inner)); [reflexivity|].
  intros items' inner' Heq. injection Heq as <-. apply Hinner.
Qed.

Lemma unwrap_packet_one_level_witness :
  (forall items inner,
      PDict [(KStr "packet", PDict [(KStr "from", PInt 1)])] = PDict items ->
      dict_get items "packet" = Some (PDict inner) ->
      unwrap_packet (PDict [(KStr "packet", PDict [(KStr "from", PInt 1)])]) []
      = PDict inner)
  /\ ((forall items inner,
          PDict [(KStr "packet", PDict [(KStr "from", PInt 1)])] = PDict items ->
          dict_get items "packet" <> Some (PDict inner)) ->
      unwrap_packet (PDict [(KStr "packet", PDict [(KStr "from", PInt 1)])]) []
      = PDict [(KStr "packet", PDict [(KStr "from", PInt 1)])])
  /\ (forall items inner depth interface stdout,
        PDict [(KStr "packet", PDict [(KStr "from", PInt 1)])] = PDict items ->
        dict_get items "packet" = Some (PDict inner) ->
        (forall inner', dict_get inner "packet" <> Some (PDict inner')) ->
        on_receive (fun _ _ => Ok "{}") depth
          (PDict [(KStr "packet", PDict [(KStr "from", PInt 1)])])
          interface [] stdout
        = on_receive (fun _ _ => Ok "{}") depth (PDict inner) interface [] stdout).
Proof.
  apply (unwrap_packet_one_level (fun _ _ => Ok "{}")
           (PDict [(KStr "packet", PDict [(KStr "from", PInt 1)])]) []).
  reflexivity.
Defined.

(** The example of the specification, for any serialiser. *)
Example on_receive_wrapped_like_direct
  (json_dumps : pyval -> bool -> result string) (depth : nat) (stdout : list string) :
  on_receive json_dumps depth
    (PDict [(KStr "packet", PDict [(KStr "from", PInt 1)])]) PNone [] stdout
  = on_receive json_dumps depth (PDict [(KStr "from", PInt 1)]) PNone [] stdout
  /\ unwrap_packet
       (PDict [(KStr "packet", PDict [(KStr "packet", PDict [(KStr "from", PInt 1)])])])
       []
     = PDict [(KStr "packet", PDict [(KStr "from", PInt 1)])].
Proof. split; reflexivity. Qed.

(** C7: a notification that resolves to [None] makes [on_receive] return
    normally with the output as it was: no line is written and nothing is
    raised.  That is what happens when the callback gets no packet at
    all. *)
Theorem on_receive_drops_absent (json_dumps : pyval -> bool -> result string)
  (depth : nat) (packet interface : pyval) (kwargs : list (pykey * pyval))
  (stdout : list string) :
  (unwrap_packet packet kwargs = PNone ->
   on_receive json_dumps depth packet interface kwargs stdout = Ok stdout)
  /\ (packet = PNone -> dict_get kwargs "packet" = None ->
      unwrap_packet packet kwargs = PNone).
Proof.
  split.
  - intros H. unfold on_receive. rewrite H. reflexivity.
  - intros -> H. unfold unwrap_packet. rewrite H. reflexivity.
Qed.

Lemma on_receive_drops_absent_witness :
  on_receive (fun _ _ => Raise TypeError) 0 PNone PNone
    [(KStr "interface_name", PStr "serial")] ["earlier line"]
  = Ok ["earlier line"].
Proof.
  destruct (on_receive_drops_absent (fun _ _ => Raise TypeError) 0 PNone PNone
              [(KStr "interface_name", PStr "serial")] ["earlier line"])
    as [Hdrop Hnone].
  apply Hdrop. apply Hnone; reflexivity.
Defined.

(** ** Further examples *)

(** Keys in insertion order; a key that is not text is stringified; two
    keys with the same text share the place of the first and the value of
    the last. *)
Example to_jsonable_mapping_examples :
  to_jsonable 2 (PDict [(KStr "a", PInt 1); (KStr "b", PInt 2); (KStr "c", PInt 3)])
  = Ok (PDict [(KStr "a", PInt 1); (KStr "b", PInt 2); (KStr "c", PInt 3)])
  /\ to_jsonable 2 (PDict [(KInt 1, PStr "x"); (KStr "k", PNone); (KStr "1", PStr "y")])
     = Ok (PDict [(KStr "1", PStr "y"); (KStr "k", PNone)]).
Proof. split; reflexivity. Qed.

(** The end-to-end scenario: one line is appended to the output. *)
Example on_receive_scenario (json_dumps : pyval -> bool -> result string)
  (stdout : list string) :
  on_receive json_dumps 4 scenario_payload PNone [] stdout
  = (text <- json_dumps scenario_payload false ;;
     Ok (stdout ++ [(text ++ newline)%string])).
Proof. reflexivity. Qed.

(** * Further properties of the code *)

(** ** What [to_jsonable] returns *)

(** X1: whatever [to_jsonable] returns is JSON-safe, and it nests no
    deeper than the stack the call had and no deeper than the value it
    was given. *)
Theorem to_jsonable_result_shape (n : nat) (v r : pyval) :
  to_jsonable n v = Ok r ->
  json_safe r = true /\ height r <= n /\ height r <= height v.
Proof.
  intros H. split; [exact (to_jsonable_json_safe n v r H)|].
  pose proof (to_jsonable_height n v r H) as Hn. split; [exact Hn|].
  destruct (Nat.le_gt_cases (height v) n) as [Hle|Hgt]; [|lia].
  rewrite (to_jsonable_stable n (height v) v Hle (Nat.le_refl _)) in H.
  exact (to_jsonable_height _ v r H).
Qed.

Lemma to_jsonable_result_shape_witness :
  json_safe (PList [PInt 1; PStr "ab01"]) = true
  /\ height (PList [PInt 1; PStr "ab01"]) <= 7
  /\ height (PList [PInt 1; PStr "ab01"]) <= height with_to_dict.
Proof.
  apply (to_jsonable_result_shape 7 with_to_dict (PList [PInt 1; PStr "ab01"])).
  reflexivity.
Defined.

Lemma hasattr_Raise (o : object pyval) (name : string) (present : bool) (e : exn) :
  hasattr o name present = Raise e ->
  o_getattr o name = Raised e /\ e <> AttributeError.
Proof.
  unfold hasattr. destruct present; [discriminate|].
  destruct (o_getattr o name) as [[]|]; intros H; try discriminate;
    injection H as <-; split; (reflexivity || discriminate).
Qed.

Lemma from_protobuf_raise (f : pyval -> result pyval) (o : object pyval) (e : exn) :
  from_protobuf f o = Raise e ->
  o_str o = Raise e
  \/ exists name,
       In name probed_names /\ o_getattr o name = Raised e /\ e <> AttributeError.
Proof.
  assert (forall name present,
             In name probed_names -> hasattr o name present = Raise e ->
             o_str o = Raise e
             \/ exists name,
                  In name probed_names /\ o_getattr o name = Raised e
                  /\ e <> AttributeError) as Hprobe.
  { intros name present Hin H. right. exists name.
    split; [exact Hin | exact (hasattr_Raise o name present e H)]. }
  assert (str_fallback o = Raise e -> o_str o = Raise e
          \/ exists name,
               In name probed_names /\ o_getattr o name = Raised e
               /\ e <> AttributeError) as Hstr.
  { unfold str_fallback. destruct (o_str o); simpl; intros H; try discriminate.
    left. congruence. }
  assert (from_vars f o = Raise e -> o_str o = Raise e
          \/ exists name,
               In name probed_names /\ o_getattr o name = Raised e
               /\ e <> AttributeError) as Hvars.
  { unfold from_vars. destruct (o_vars o) as [items|].
    - destruct (vars_loop f items []) as [[|kv converted]|e'|s]; try exact Hstr;
        discriminate.
    - destruct (hasattr o "__dict__" false) eqn:E; simpl; try discriminate;
        [exact Hstr|].
      intros H. injection H as ->.
      apply (Hprobe "__dict__" false); [simpl; tauto | exact E]. }
  assert (from_to_dict f o = Raise e -> o_str o = Raise e
          \/ exists name,
               In name probed_names /\ o_getattr o name = Raised e
               /\ e <> AttributeError) as Hdict.
  { unfold from_to_dict, try_return.
    destruct (o_to_dict o) as [| |outcome]; [|exact Hvars|].
    - destruct (hasattr o "to_dict" false) eqn:E; simpl; try discriminate;
        [exact Hvars|].
      intros H. injection H as ->.
      apply (Hprobe "to_dict" false); [simpl; tauto | exact E].
    - destruct (bind outcome _); [discriminate | exact Hvars | discriminate]. }
  unfold from_protobuf, try_return.
  destruct (hasattr o "ListFields" (o_ListFields o)) as [a|e'|s] eqn:E1;
    cbn [bind]; try discriminate.
  - destruct a.
    + destruct (hasattr o "DESCRIPTOR" (o_DESCRIPTOR o)) as [b|e'|s] eqn:E2;
        cbn [bind andb]; try discriminate.
      * destruct b; [|exact Hdict].
        destruct (bind (MessageToDict o true true) _);
          [discriminate | exact Hdict | discriminate].
      * intros H. injection H as ->.
        apply (Hprobe "DESCRIPTOR" (o_DESCRIPTOR o)); [simpl; tauto | exact E2].
    + cbn [bind andb]. exact Hdict.
  - intros H. injection H as ->.
    apply (Hprobe "ListFields" (o_ListFields o)); [simpl; tauto | exact E1].
Qed.

(** X2: an error under [Exception] that leaves the normalisation of an
    object was raised by its own [str(value)] at line 61 or by reading
    one of the attributes probed at lines 29, 43 and 49: what
    [MessageToDict], [to_dict], the attribute loop or the normalisation
    of their results raise under [Exception] is dropped by the
    handlers. *)
Theorem to_jsonable_object_error (n : nat) (o : object pyval) (e : exn) :
  to_jsonable (S n) (PObj o) = Raise e ->
  o_str o = Raise e
  \/ exists name,
       In name probed_names /\ o_getattr o name = Raised e /\ e <> AttributeError.
Proof. simpl. apply from_protobuf_raise. Qed.

Lemma to_jsonable_object_error_witness :
  o_str
    {| o_ListFields := true; o_DESCRIPTOR := true; o_message := None;
       o_to_dict := Callable (Raise TypeError);
       o_vars := Some [(KInt 3, PNone)];
       o_str := @Raise string (Error "ValueError");
       o_getattr := lookup_fails |}
  = Raise (Error "ValueError")
  \/ exists name,
       In name probed_names
       /\ o_getattr
            {| o_ListFields := true; o_DESCRIPTOR := true; o_message := None;
               o_to_dict := Callable (@Raise pyval TypeError);
               o_vars := Some [(KInt 3, PNone)];
               o_str := Raise (Error "ValueError");
               o_getattr := lookup_fails |} name
          = Raised (Error "ValueError")
       /\ Error "ValueError" <> AttributeError.
Proof.
  apply (to_jsonable_object_error 4
           {| o_ListFields := true; o_DESCRIPTOR := true; o_message := None;
              o_to_dict := Callable (Raise TypeError);
              o_vars := Some [(KInt 3, PNone)];
              o_str := Raise (Error "ValueError");
              o_getattr := lookup_fails |}
           (Error "ValueError")).
  reflexivity.
Defined.

(** What the handlers do not take: the error of a probe, and a signal
    from inside a guarded attempt. *)
Example to_jsonable_unguarded :
  to_jsonable 2 fragile = Raise (Error "ValueError")
  /\ to_jsonable 2 interrupted = Interrupt KeyboardInterrupt
  /\ str_succeeds fragile = true
  /\ str_succeeds interrupted = true.
Proof. repeat split; reflexivity. Qed.

(** ** Sequences, lines 25-26 *)

Lemma list_comprehension_Ok (f : pyval -> result pyval) (elems : list pyval) :
  forall out,
    list_comprehension f elems = Ok out
    <-> Forall2 (fun v w => f v = Ok w) elems out.
Proof.
  induction elems as [|v elems IH]; simpl; intros out; split; intros H.
  - injection H as <-. constructor.
  - inversion H. reflexivity.
  - bind_inv H. bind_inv H. injection H as <-.
    constructor; [assumption | apply IH; assumption].
  - inversion H as [|? w ? out' Hv Hrest]; subst.
    rewrite Hv. simpl. apply IH in Hrest. rewrite Hrest. reflexivity.
Qed.

(** X3: a list, a tuple and a set with the same elements in the same
    order normalise alike, to a list; it holds the normalised elements
    one for one, in the order of the original. *)
Theorem to_jsonable_sequence (n : nat) (elems : list pyval) :
  to_jsonable (S n) (PTuple elems) = to_jsonable (S n) (PList elems)
  /\ to_jsonable (S n) (PSet elems) = to_jsonable (S n) (PList elems)
  /\ (forall r,
        to_jsonable (S n) (PList elems) = Ok r
        <-> exists out,
              r = PList out
              /\ Forall2 (fun v w => to_jsonable n v = Ok w) elems out).
Proof.
  split; [reflexivity|]. split; [reflexivity|].
  intros r. simpl. split.
  - intros H. bind_inv H. injection H as <-.
    exists a. split; [reflexivity | apply list_comprehension_Ok; assumption].
  - intros (out & -> & H). apply list_comprehension_Ok in H. rewrite H. reflexivity.
Qed.

Lemma list_comprehension_first_error (f : pyval -> result pyval)
  (before : list pyval) (v : pyval) (rest : list pyval) (e : exn) :
  forall outs,
    Forall2 (fun x w => f x = Ok w) before outs ->
    f v = Raise e ->
    list_comprehension f (before ++ v :: rest) = Raise e.
Proof.
  induction before as [|x before IH]; intros outs Hb Hv; simpl.
  - rewrite Hv. reflexivity.
  - inversion Hb as [|? w ? outs' Hx Hrest]; subst.
    rewrite Hx. simpl. rewrite (IH outs' Hrest Hv). reflexivity.
Qed.

(** X4: a sequence has no handler.  When the elements before one
    normalise and that one raises, the sequence raises the same error,
    whatever comes after. *)
Theorem to_jsonable_sequence_error (n : nat) (before : list pyval) (v : pyval)
  (rest outs : list pyval) (e : exn) :
  Forall2 (fun x w => to_jsonable n x = Ok w) before outs ->
  to_jsonable n v = Raise e ->
  to_jsonable (S n) (PList (before ++ v :: rest)) = Raise e
  /\ to_jsonable (S n) (PTuple (before ++ v :: rest)) = Raise e
  /\ to_jsonable (S n) (PSet (before ++ v :: rest)) = Raise e.
Proof.
  intros Hb Hv. simpl.
  rewrite (list_comprehension_first_error _ before v rest e outs Hb Hv).
  repeat split; reflexivity.
Qed.

Lemma to_jsonable_sequence_error_witness :
  to_jsonable 3 (PList ([PInt 1; PBytes [xab]] ++ PSet [unprintable] :: [PNone]))
  = Raise (Error "ValueError")
  /\ to_jsonable 3 (PTuple ([PInt 1; PBytes [xab]] ++ PSet [unprintable] :: [PNone]))
     = Raise (Error "ValueError")
  /\ to_jsonable 3 (PSet ([PInt 1; PBytes [xab]] ++ PSet [unprintable] :: [PNone]))
     = Raise (Error "ValueError").
Proof.
  apply (to_jsonable_sequence_error 2 [PInt 1; PBytes [xab]] (PSet [unprintable])
           [PNone] [PInt 1; PStr "ab"] (Error "ValueError"));
    repeat constructor.
Defined.

(** ** Mappings, lines 23-24 *)

Lemma dict_comprehension_app (f : pyval -> result pyval)
  (before : list (pykey * pyval)) (rest : list (pykey * pyval)) :
  forall keys outs built,
    Forall2 (fun kv s => py_str_key (fst kv) = Ok s) before keys ->
    Forall2 (fun kv w => f (snd kv) = Ok w) before outs ->
    dict_comprehension f (before ++ rest) built
    = dict_comprehension f rest (dict_of (combine keys outs) built).
Proof.
  induction before as [|[k v] before IH]; intros keys outs built Hk Hv;
    inversion Hk; inversion Hv; subst; simpl in *; [reflexivity|].
  rewrite H1, H6. simpl. apply IH; assumption.
Qed.

(** X5: a mapping has no handler either.  When the entries before one
    convert and normalise, and that one's key has no text or, its key
    having one, its value does not normalise, the mapping raises the
    same error, whatever comes after. *)
Theorem to_jsonable_mapping_error (n : nat) (before : list (pykey * pyval))
  (k : pykey) (v : pyval) (rest : list (pykey * pyval)) (keys : list string)
  (outs : list pyval) (e : exn) :
  Forall2 (fun kv s => py_str_key (fst kv) = Ok s) before keys ->
  Forall2 (fun kv w => to_jsonable n (snd kv) = Ok w) before outs ->
  py_str_key k = Raise e
  \/ ((exists s, py_str_key k = Ok s) /\ to_jsonable n v = Raise e) ->
  to_jsonable (S n) (PDict (before ++ (k, v) :: rest)) = Raise e.
Proof.
  intros Hk Hv Hbad. simpl.
  rewrite (dict_comprehension_app _ before ((k, v) :: rest) keys outs [] Hk Hv).
  simpl. destruct Hbad as [Hkey|[[s Hkey] Hval]]; rewrite Hkey; simpl;
    [|rewrite Hval]; reflexivity.
Qed.

Lemma to_jsonable_mapping_error_witness :
  to_jsonable 2
    (PDict ([(KStr "id", PInt 7)]
            ++ (KOpaque (Raise (Error "ValueError")), PNone)
            :: [(KStr "snr", PInt 3)]))
  = Raise (Error "ValueError").
Proof.
  apply (to_jsonable_mapping_error 1 [(KStr "id", PInt 7)]
           (KOpaque (Raise (Error "ValueError"))) PNone [(KStr "snr", PInt 3)]
           ["id"] [PInt 7] (Error "ValueError"));
    [repeat constructor | repeat constructor | left; reflexivity].
Defined.

Lemma dict_get_setitem {V : Type} (d : text_dict V) (k k' : string) (v : V) :
  dict_get (text_items (dict_setitem d k v)) k'
  = if String.eqb k k' then Some v else dict_get (text_items d) k'.
Proof.
  unfold text_items. induction d as [|[k0 v0] d IH]; simpl.
  - destruct (String.eqb k k'); reflexivity.
  - destruct (String.eqb k0 k) eqn:E0; simpl.
    + apply String.eqb_eq in E0. subst k0.
      destruct (String.eqb k k'); reflexivity.
    + rewrite IH.
      destruct (String.eqb k0 k') eqn:E1; [|reflexivity].
      apply String.eqb_eq in E1. subst k0.
      rewrite String.eqb_sym, E0. reflexivity.
Qed.

Lemma dict_get_dict_of {V : Type} (pairs : list (string * V)) (k : string) :
  forall built,
    dict_get (text_items (dict_of pairs built)) k
    = match last_assigned pairs k with
      | Some w => Some w
      | None => dict_get (text_items built) k
      end.
Proof.
  unfold dict_of.
  induction pairs as [|[k0 v0] pairs IH]; simpl; intros built; [reflexivity|].
  rewrite IH, dict_get_setitem.
  destruct (last_assigned pairs k); [reflexivity|].
  destruct (String.eqb k0 k); reflexivity.
Qed.

(** X6: in the object a mapping normalises to, looking a key up gives
    the normalisation of the last original value whose key has that
    text, and nothing when no key has it: of several keys with one text
    the last one's value stays. *)
Theorem to_jsonable_mapping_lookup (n : nat) (items : list (pykey * pyval))
  (keys : list string) (values : list pyval) :
  Forall2 (fun kv s => py_str_key (fst kv) = Ok s) items keys ->
  Forall2 (fun kv r => to_jsonable n (snd kv) = Ok r) items values ->
  exists built,
    to_jsonable (S n) (PDict items) = Ok (PDict built)
    /\ forall k, dict_get built k = last_assigned (combine keys values) k.
Proof.
  intros Hk Hv. exists (text_items (dict_of (combine keys values) [])). split.
  - simpl. rewrite (dict_comprehension_dict_of _ _ keys values [] Hk Hv).
    reflexivity.
  - intros k. rewrite dict_get_dict_of.
    destruct (last_assigned (combine keys values) k); reflexivity.
Qed.

Lemma to_jsonable_mapping_lookup_witness :
  exists built,
    to_jsonable 2 (PDict [(KInt 1, PStr "x"); (KStr "k", PNone); (KStr "1", PStr "y")])
    = Ok (PDict built)
    /\ forall k,
         dict_get built k
         = last_assigned (combine ["1"; "k"; "1"] [PStr "x"; PNone; PStr "y"]) k.
Proof.
  apply (to_jsonable_mapping_lookup 1
           [(KInt 1, PStr "x"); (KStr "k", PNone); (KStr "1", PStr "y")]
           ["1"; "k"; "1"] [PStr "x"; PNone; PStr "y"]);
    repeat constructor.
Defined.

(** ** The [to_dict] rule, lines 43-47 *)

(** X7: when lines 29-41 return nothing, an object whose callable
    [to_dict] returns a value that fits in the stack normalises as that
    value does when that succeeds, and as if it had no [to_dict] when it
    raises under [Exception]; a [to_dict] that raises under [Exception],
    or that is not callable, is passed over in the same way. *)
Theorem to_jsonable_to_dict (n : nat) (o : object pyval) :
  skips_protobuf (to_jsonable n) o = true ->
  (forall d, o_to_dict o = Callable (Ok d) -> height d <= n ->
     to_jsonable (S n) (PObj o)
     = try_return (to_jsonable (S n) d) (from_vars (to_jsonable n) o))
  /\ (forall e, o_to_dict o = Callable (Raise e) ->
        to_jsonable (S n) (PObj o) = from_vars (to_jsonable n) o)
  /\ (o_to_dict o = NotCallable ->
      to_jsonable (S n) (PObj o) = from_vars (to_jsonable n) o).
Proof.
  intros Hskip.
  assert (to_jsonable (S n) (PObj o) = from_to_dict (to_jsonable n) o) as E.
  { simpl. apply skips_protobuf_from_to_dict. exact Hskip. }
  rewrite E. unfold from_to_dict. split; [|split].
  - intros d Hd Hh. rewrite Hd. cbn [bind].
    rewrite (to_jsonable_stable (S n) n d); [reflexivity | lia | exact Hh].
  - intros e He. rewrite He. reflexivity.
  - intros He. rewrite He. reflexivity.
Qed.

Lemma to_jsonable_to_dict_witness :
  (forall d,
      Callable (Ok (PList [PInt 1; PBytes [xab; x01]])) = Callable (Ok d) ->
      height d <= 2 ->
      to_jsonable 3 with_to_dict
      = try_return (to_jsonable 3 d)
          (from_vars (to_jsonable 2)
             {| o_ListFields := false; o_DESCRIPTOR := false; o_message := None;
                o_to_dict := Callable (Ok (PList [PInt 1; PBytes [xab; x01]]));
                o_vars := None; o_str := Ok "telemetry";
                o_getattr := lookup_fails |}))
  /\ (forall e,
        Callable (Ok (PList [PInt 1; PBytes [xab; x01]])) = Callable (Raise e) ->
        to_jsonable 3 with_to_dict
        = from_vars (to_jsonable 2)
            {| o_ListFields := false; o_DESCRIPTOR := false; o_message := None;
               o_to_dict := Callable (Ok (PList [PInt 1; PBytes [xab; x01]]));
               o_vars := None; o_str := Ok "telemetry";
               o_getattr := lookup_fails |})
  /\ (Callable (Ok (PList [PInt 1; PBytes [xab; x01]])) = NotCallable ->
      to_jsonable 3 with_to_dict
      = from_vars (to_jsonable 2)
          {| o_ListFields := false; o_DESCRIPTOR := false; o_message := None;
             o_to_dict := Callable (Ok (PList [PInt 1; PBytes [xab; x01]]));
             o_vars := None; o_str := Ok "telemetry";
             o_getattr := lookup_fails |}).
Proof.
  apply (to_jsonable_to_dict 2
           {| o_ListFields := false; o_DESCRIPTOR := false; o_message := None;
              o_to_dict := Callable (Ok (PList [PInt 1; PBytes [xab; x01]]));
              o_vars := None; o_str := Ok "telemetry";
              o_getattr := lookup_fails |}).
  reflexivity.
Defined.

(** ** Plain data and the stack, lines 18-26 *)

Lemma list_max_map_gt {A : Type} (h : A -> nat) (xs : list A) (n : nat) :
  n < list_max (map h xs) -> Exists (fun x => n < h x) xs.
Proof.
  induction xs as [|x xs IH]; simpl; intros H; [lia|].
  destruct (Nat.le_gt_cases (h x) n) as [Hle|Hgt].
  - apply Exists_cons_tl. apply IH. lia.
  - apply Exists_cons_hd. exact Hgt.
Qed.

Lemma list_comprehension_some_error (f : pyval -> result pyval) (e : exn)
  (elems : list pyval) :
  Forall (fun x => (exists r, f x = Ok r) \/ f x = Raise e) elems ->
  Exists (fun x => f x = Raise e) elems ->
  list_comprehension f elems = Raise e.
Proof.
  induction 1 as [|x elems Hx Hall IH]; intros Hex; [inversion Hex|].
  simpl. destruct Hx as [[r Hr]|Hr]; rewrite Hr; simpl; [|reflexivity].
  inversion Hex as [? ? Hhd|? ? Htl]; subst; [congruence|].
  rewrite (IH Htl). reflexivity.
Qed.

Lemma dict_comprehension_some_error (f : pyval -> result pyval) (e : exn)
  (items : list (pykey * pyval)) :
  Forall (fun kv => (exists s, py_str_key (fst kv) = Ok s)
                    /\ ((exists r, f (snd kv) = Ok r) \/ f (snd kv) = Raise e))
    items ->
  Exists (fun kv => f (snd kv) = Raise e) items ->
  forall built, dict_comprehension f items built = Raise e.
Proof.
  induction 1 as [|[k v] items [[s Hs] Hv] Hall IH]; intros Hex built;
    [inversion Hex|].
  simpl in *. rewrite Hs. simpl.
  destruct Hv as [[r Hr]|Hr]; rewrite Hr; simpl; [|reflexivity].
  inversion Hex as [? ? Hhd|? ? Htl]; subst; [simpl in Hhd; congruence|].
  apply IH. exact Htl.
Qed.

(** X8: for plain data the stack alone decides.  With room for the
    nesting of the value [to_jsonable] returns; with less it raises
    [RecursionError], which no handler of the function catches for a
    container. *)
Theorem to_jsonable_plain (n : nat) :
  forall v, plain v = true ->
    (height v <= n -> exists r, to_jsonable n v = Ok r)
    /\ (n < height v -> to_jsonable n v = Raise RecursionError).
Proof.
  induction n as [|n IH]; intros v Hp.
  { split; [pose proof (height_pos v); lia | reflexivity]. }
  assert (forall elems, forallb plain elems = true ->
            Forall (fun x => (exists r, to_jsonable n x = Ok r)
                             \/ to_jsonable n x = Raise RecursionError) elems) as Hdich.
  { intros elems He. apply Forall_forall. intros x Hx.
    rewrite forallb_forall in He. destruct (IH x (He x Hx)) as [Hok Herr].
    destruct (Nat.le_gt_cases (height x) n); auto. }
  assert (forall elems, forallb plain elems = true ->
            (list_max (map height elems) <= n ->
             exists out, list_comprehension (to_jsonable n) elems = Ok out)
            /\ (n < list_max (map height elems) ->
                list_comprehension (to_jsonable n) elems = Raise RecursionError))
    as Hseq.
  { intros elems He. split; intros Hh.
    - apply list_comprehension_returns. apply list_max_map_le in Hh.
      apply Forall_forall. intros x Hx.
      rewrite forallb_forall in He. rewrite Forall_forall in Hh.
      apply (IH x (He x Hx)). auto.
    - apply list_comprehension_some_error; [apply Hdich; exact He|].
      apply list_max_map_gt in Hh. apply Exists_exists in Hh.
      destruct Hh as (x & Hx & Hgt). apply Exists_exists. exists x.
      split; [exact Hx|]. rewrite forallb_forall in He.
      apply (IH x (He x Hx)). exact Hgt. }
  destruct v; simpl in Hp; try discriminate;
    try (split; [intros _; eexists; reflexivity | simpl; lia]);
    try (destruct (Hseq elems Hp) as [Hok Herr]; simpl; split; intros Hh;
         [destruct Hok as [out ->]; [lia | simpl; eauto]
         | rewrite Herr; [reflexivity | lia]]).
  rewrite forallb_forall in Hp.
  assert (Forall (fun kv => (exists s, py_str_key (fst kv) = Ok s)
                            /\ ((exists r, to_jsonable n (snd kv) = Ok r)
                                \/ to_jsonable n (snd kv) = Raise RecursionError))
            items) as Hitems.
  { apply Forall_forall. intros kv Hin. specialize (Hp kv Hin).
    apply andb_true_iff in Hp. destruct Hp as [Hk Hv]. split.
    - destruct (py_str_key (fst kv)); [eauto | discriminate..].
    - destruct (IH (snd kv) Hv) as [Hok Herr].
      destruct (Nat.le_gt_cases (height (snd kv)) n); auto. }
  simpl. split; intros Hh.
  - apply le_S_n, list_max_map_le in Hh. rewrite Forall_forall in Hh.
    destruct (dict_comprehension_returns (to_jsonable n) items) with
      (built := @nil (string * pyval)) as [out ->]; [|simpl; eauto].
    apply Forall_forall. intros kv Hin.
    rewrite Forall_forall in Hitems. destruct (Hitems kv Hin) as [Hk _].
    split; [exact Hk|]. specialize (Hp kv Hin).
    apply andb_true_iff in Hp. destruct Hp as [_ Hv].
    apply (IH (snd kv) Hv). auto.
  - rewrite (dict_comprehension_some_error _ RecursionError items Hitems);
      [reflexivity|].
    apply Nat.succ_lt_mono in Hh. apply list_max_map_gt in Hh.
    apply Exists_exists in Hh. destruct Hh as (kv & Hin & Hgt).
    apply Exists_exists. exists kv. split; [exact Hin|].
    specialize (Hp kv Hin). apply andb_true_iff in Hp. destruct Hp as [_ Hv].
    apply (IH (snd kv) Hv). exact Hgt.
Qed.

Lemma to_jsonable_plain_witness :
  (exists r, to_jsonable 3 (PDict [(KStr "hops", PTuple [PInt 1; PSet []])]) = Ok r)
  /\ to_jsonable 2 (PDict [(KStr "hops", PTuple [PInt 1; PSet []])])
     = Raise RecursionError.
Proof.
  split.
  - apply (to_jsonable_plain 3 (PDict [(KStr "hops", PTuple [PInt 1; PSet []])]));
      [reflexivity | vm_compute; lia].
  - apply (to_jsonable_plain 2 (PDict [(KStr "hops", PTuple [PInt 1; PSet []])]));
      [reflexivity | vm_compute; lia].
Defined.

(** ** Exported attributes that cannot be used, lines 49-61 *)

Lemma vars_loop_unusable (f : pyval -> result pyval) (items : list (pykey * pyval)) :
  Exists (fun kv =>
            key_text (fst kv) = None
            \/ exists name e,
                 fst kv = KStr name /\ String.prefix "_" name = false
                 /\ f (snd kv) = Raise e) items ->
  forall converted,
    (exists e, vars_loop f items converted = Raise e)
    \/ exists s, vars_loop f items converted = Interrupt s
                 /\ Exists (fun kv => f (snd kv) = Interrupt s) items.
Proof.
  induction 1 as [[key item] items Hbad|[key item] items Hex IH]; intros converted;
    simpl in *.
  - destruct Hbad as [Hkey|(name & e & -> & Hpub & Hval)].
    + destruct key; simpl in Hkey; try discriminate; eauto.
    + rewrite Hpub, Hval. simpl. eauto.
  - assert (forall c,
               (exists e, vars_loop f items c = Raise e)
               \/ exists s, vars_loop f items c = Interrupt s
                            /\ Exists (fun kv => f (snd kv) = Interrupt s)
                                 ((key, item) :: items)) as IH'.
    { intros c. destruct (IH c) as [He|(s & Hs & Hin)]; [left; exact He|].
      right. exists s. split; [exact Hs | apply Exists_cons_tl; exact Hin]. }
    destruct key; eauto.
    destruct (String.prefix "_" s); [apply IH'|].
    destruct (f item) as [r|e|sig] eqn:E; simpl; [apply IH' | eauto|].
    right. exists sig. split; [reflexivity | apply Exists_cons_hd; exact E].
Qed.

(** X9: one attribute that cannot be used discards them all.  When
    lines 29-47 return nothing and the [__dict__] of the object has a
    name that is not text, or a name without a leading underscore whose
    value does not normalise, the object comes out as [str(value)],
    whatever its other attributes are; the one other outcome is that
    the normalisation of an attribute value raises outside [Exception],
    which goes through. *)
Theorem to_jsonable_unusable_attribute (n : nat) (o : object pyval)
  (items : list (pykey * pyval)) :
  reaches_vars (to_jsonable n) o = true ->
  o_vars o = Some items ->
  Exists (fun kv =>
            key_text (fst kv) = None
            \/ exists name e,
                 fst kv = KStr name /\ String.prefix "_" name = false
                 /\ to_jsonable n (snd kv) = Raise e) items ->
  to_jsonable (S n) (PObj o) = str_fallback o
  \/ exists s, to_jsonable (S n) (PObj o) = Interrupt s
               /\ Exists (fun kv => to_jsonable n (snd kv) = Interrupt s) items.
Proof.
  intros Hreach Hvars Hbad. simpl.
  rewrite (reaches_vars_from_vars _ o Hreach). unfold from_vars. rewrite Hvars.
  destruct (vars_loop_unusable _ items Hbad []) as [[e ->]|(s & -> & Hin)];
    [left; reflexivity | right; eauto].
Qed.

Lemma to_jsonable_unusable_attribute_witness :
  to_jsonable 3
    (PObj {| o_ListFields := false; o_DESCRIPTOR := false; o_message := None;
             o_to_dict := Absent;
             o_vars := Some [(KStr "snr", PInt 3); (KStr "peer", unprintable)];
             o_str := Ok "node";
             o_getattr := lookup_fails |})
  = str_fallback
      {| o_ListFields := false; o_DESCRIPTOR := false; o_message := None;
         o_to_dict := Absent;
         o_vars := Some [(KStr "snr", PInt 3); (KStr "peer", unprintable)];
         o_str := Ok "node";
         o_getattr := lookup_fails |}
  \/ exists s,
       to_jsonable 3
         (PObj {| o_ListFields := false; o_DESCRIPTOR := false; o_message := None;
                  o_to_dict := Absent;
                  o_vars := Some [(KStr "snr", PInt 3); (KStr "peer", unprintable)];
                  o_str := Ok "node";
                  o_getattr := lookup_fails |})
       = Interrupt s
       /\ Exists (fun kv => to_jsonable 2 (snd kv) = Interrupt s)
            [(KStr "snr", PInt 3); (KStr "peer", unprintable)].
Proof.
  apply (to_jsonable_unusable_attribute 2
           {| o_ListFields := false; o_DESCRIPTOR := false; o_message := None;
              o_to_dict := Absent;
              o_vars := Some [(KStr "snr", PInt 3); (KStr "peer", unprintable)];
              o_str := Ok "node";
              o_getattr := lookup_fails |}
           [(KStr "snr", PInt 3); (KStr "peer", unprintable)]);
    [reflexivity | reflexivity |].
  apply Exists_cons_tl. apply Exists_cons_hd. right.
  exists "peer", (Error "ValueError"). repeat split; reflexivity.
Defined.

(** An attribute value interrupted from the keyboard before the unusable
    name is reached: the signal goes through the handler of line 58. *)
Example to_jsonable_attribute_interrupted :
  to_jsonable 3
    (PObj {| o_ListFields := false; o_DESCRIPTOR := false; o_message := None;
             o_to_dict := Absent;
             o_vars := Some [(KStr "peer", interrupted); (KInt 3, PNone)];
             o_str := Ok "node";
             o_getattr := lookup_fails |})
  = Interrupt KeyboardInterrupt.
Proof. reflexivity. Qed.

(** ** Bytes, lines 21-22 *)

Lemma map_to_N_inj (a b : list byte) :
  map Byte.to_N a = map Byte.to_N b -> a = b.
Proof.
  revert b. induction a as [|x a IH]; destruct b as [|y b]; simpl; intros H;
    try discriminate; [reflexivity|].
  injection H as Hxy Hab. f_equal; [|apply IH; exact Hab].
  pose proof (Byte.of_to_N x) as Hx. rewrite Hxy, Byte.of_to_N in Hx.
  congruence.
Qed.

(** X10: bytes values that normalise to the same text are the same
    bytes: the hexadecimal text loses nothing. *)
Theorem to_jsonable_bytes_injective (n m : nat) (a b : list byte) :
  to_jsonable (S n) (PBytes a) = to_jsonable (S m) (PBytes b) -> a = b.
Proof.
  simpl. intros H. injection H as H. apply map_to_N_inj.
  pose proof (bytes_hex_decode a) as Ha. rewrite H, bytes_hex_decode in Ha.
  congruence.
Qed.

Lemma to_jsonable_bytes_injective_witness : [xab; x01] = [xab; x01].
Proof.
  apply (to_jsonable_bytes_injective 0 5 [xab; x01] [xab; x01]). reflexivity.
Defined.

(** ** The relay, lines 64-75 *)

Lemma unwrap_packet_present (packet : pyval) (kwargs : list (pykey * pyval)) :
  packet <> PNone ->
  unwrap_packet packet kwargs = unwrap_packet packet []
  /\ unwrap_packet packet kwargs <> PNone.
Proof.
  intros Hp. unfold unwrap_packet.
  destruct packet; try (split; [reflexivity | discriminate]); [contradiction|].
  destruct (dict_get items "packet") as [[]|]; split;
    (reflexivity || discriminate).
Qed.

Lemma app_singleton_neq {A : Type} (xs : list A) (x : A) : xs ++ [x] <> xs.
Proof.
  intros H. apply (f_equal (@List.length A)) in H.
  rewrite length_app in H. simpl in H. lia.
Qed.

Lemma on_receive_Ok (json_dumps : pyval -> bool -> result string) (depth : nat)
  (packet interface : pyval) (kwargs : list (pykey * pyval))
  (stdout out : list string) :
  on_receive json_dumps depth packet interface kwargs stdout = Ok out ->
  (unwrap_packet packet kwargs = PNone /\ out = stdout)
  \/ exists r text,
       unwrap_packet packet kwargs <> PNone
       /\ to_jsonable depth (unwrap_packet packet kwargs) = Ok r
       /\ json_dumps r false = Ok text
       /\ out = stdout ++ [(text ++ newline)%string].
Proof.
  unfold on_receive.
  destruct (unwrap_packet packet kwargs) eqn:E; intros H;
    try (right; bind_inv H; bind_inv H; injection H as <-;
         eexists; eexists; repeat split; [discriminate | eassumption..]).
  left. injection H as <-. auto.
Qed.

(** X11: when [on_receive] returns normally it has either written
    nothing, the payload being absent, or added exactly one line after
    the earlier output: what [json.dumps], called with
    [ensure_ascii=False], gives for the normalised payload, a JSON-safe
    value, followed by a newline. *)
Theorem on_receive_outcome (json_dumps : pyval -> bool -> result string)
  (depth : nat) (packet interface : pyval) (kwargs : list (pykey * pyval))
  (stdout out : list string) :
  on_receive json_dumps depth packet interface kwargs stdout = Ok out ->
  (unwrap_packet packet kwargs = PNone /\ out = stdout)
  \/ exists r text,
       unwrap_packet packet kwargs <> PNone
       /\ to_jsonable depth (unwrap_packet packet kwargs) = Ok r
       /\ json_safe r = true
       /\ json_dumps r false = Ok text
       /\ out = stdout ++ [(text ++ newline)%string].
Proof.
  intros H. apply on_receive_Ok in H.
  destruct H as [H|(r & text & Hn & Hr & Ht & Hout)]; [left; exact H|].
  right. exists r, text. repeat split; try assumption.
  exact (to_jsonable_json_safe _ _ _ Hr).
Qed.

Lemma on_receive_outcome_witness :
  (unwrap_packet (PDict [(KStr "packet", PDict [(KStr "from", PInt 1)])]) [] = PNone
   /\ ["earlier"; ("{}" ++ newline)%string] = ["earlier"])
  \/ exists r text,
       unwrap_packet (PDict [(KStr "packet", PDict [(KStr "from", PInt 1)])]) []
       <> PNone
       /\ to_jsonable 2
            (unwrap_packet (PDict [(KStr "packet", PDict [(KStr "from", PInt 1)])]) [])
          = Ok r
       /\ json_safe r = true
       /\ (fun (_ : pyval) (_ : bool) => @Ok string "{}") r false = Ok text
       /\ ["earlier"; ("{}" ++ newline)%string] = ["earlier"] ++ [(text ++ newline)%string].
Proof.
  apply (on_receive_outcome (fun _ _ => Ok "{}") 2
           (PDict [(KStr "packet", PDict [(KStr "from", PInt 1)])]) PNone []
           ["earlier"] ["earlier"; ("{}" ++ newline)%string]).
  reflexivity.
Defined.

(** X12: a notification that carries a packet is never dropped:
    [on_receive] then does not return with the output as it was, and
    neither the interface nor the other keyword arguments play a part in
    what it does. *)
Theorem on_receive_present_packet (json_dumps : pyval -> bool -> result string)
  (depth : nat) (packet interface : pyval) (kwargs : list (pykey * pyval))
  (stdout : list string) :
  packet <> PNone ->
  on_receive json_dumps depth packet interface kwargs stdout <> Ok stdout
  /\ on_receive json_dumps depth packet interface kwargs stdout
     = on_receive json_dumps depth packet PNone [] stdout.
Proof.
  intros Hp. destruct (unwrap_packet_present packet kwargs Hp) as [Hsame Hsome].
  split.
  - intros H. apply on_receive_Ok in H.
    destruct H as [[Hnone _]|(r & text & _ & _ & _ & Hout)]; [contradiction|].
    symmetry in Hout. exact (app_singleton_neq _ _ Hout).
  - unfold on_receive. rewrite Hsame. reflexivity.
Qed.

Lemma on_receive_present_packet_witness :
  on_receive (fun _ _ => Ok "{}") 2 (PDict []) (PStr "iface")
    [(KStr "topic", PStr "meshtastic.receive")] ["earlier"]
  <> Ok ["earlier"]
  /\ on_receive (fun _ _ => Ok "{}") 2 (PDict []) (PStr "iface")
       [(KStr "topic", PStr "meshtastic.receive")] ["earlier"]
     = on_receive (fun _ _ => Ok "{}") 2 (PDict []) PNone [] ["earlier"].
Proof.
  apply (on_receive_present_packet (fun _ _ => Ok "{}") 2 (PDict []) (PStr "iface")
           [(KStr "topic", PStr "meshtastic.receive")] ["earlier"]).
  discriminate.
Defined.
